(** * Hebelki debug viewer: a shallow embedding of [scripts/debug-viewer.py]

    The viewer tails two log files, strips ANSI colour codes from every
    line, classifies the line into a colour tag and appends it to a Tk
    text widget that is cut back to 5000 lines.

    Python [str] values are sequences of Unicode code points; they are
    modelled as lists of [N].  The parts of Python's behaviour that depend
    on the Unicode character database of the running interpreter
    ([str.lower], [str.strip], the regex class [\d]) are taken from a type
    class whose laws fix their behaviour on ASCII, where every Python
    version agrees. *)

From Stdlib Require Import String Ascii List NArith ZArith Bool Lia.
From Equations Require Import Equations.
Import ListNotations.

Set Implicit Arguments.

(** ** Python strings *)

Definition str := list N.

(** An ASCII literal of the source, as a Python string. *)
Definition py (s : string) : str :=
  map N_of_ascii (list_ascii_of_string s).

Definition str_eqb (a b : str) : bool :=
  if list_eq_dec N.eq_dec a b then true else false.

(** [bool(s)] of a string: non-empty. *)
Definition truthy (s : str) : bool :=
  match s with [] => false | _ :: _ => true end.

Fixpoint startswith (p s : str) : bool :=
  match p, s with
  | [], _ => true
  | _ :: _, [] => false
  | a :: p', b :: s' => N.eqb a b && startswith p' s'
  end.

(** [sub in s]: [sub] occurs in [s] as a contiguous substring. *)
Fixpoint contains (sub s : str) : bool :=
  startswith sub s ||
  match s with
  | [] => false
  | _ :: s' => contains sub s'
  end.

(** [any(k in s for k in keys)] *)
Definition any_in (keys : list str) (s : str) : bool :=
  existsb (fun k => contains k s) keys.

Definition ascii_lower (c : N) : N :=
  if (65 <=? c)%N && (c <=? 90)%N then (c + 32)%N else c.

Definition ascii_isdigit (c : N) : bool := (48 <=? c)%N && (c <=? 57)%N.

(** ASCII white space as [str.strip] sees it: TAB, LF, VT, FF, CR,
    FS, GS, RS, US and the space. *)
Definition ascii_isspace (c : N) : bool :=
  ((9 <=? c)%N && (c <=? 13)%N) || ((28 <=? c)%N && (c <=? 32)%N).

(** The Unicode character database of the interpreter.  [lower_at] is the
    lower-case form of one character in its context (the characters
    before it, nearest first, and the characters after it): [str.lower]
    maps every character to one or more characters, and only the capital
    sigma looks at its context. *)
Class Unicode := {
  lower_at : str -> N -> str -> str;
  isdecimal : N -> bool;
  isspace : N -> bool;
  lower_at_ascii : forall before c after,
    (c < 128)%N -> lower_at before c after = [ascii_lower c];
  isdecimal_ascii : forall c, (c < 128)%N -> isdecimal c = ascii_isdigit c;
  isspace_ascii : forall c, (c < 128)%N -> isspace c = ascii_isspace c
}.

(** The database that knows ASCII only: every other character has no
    case, is no digit and is no white space. *)
#[program] Definition ascii_db : Unicode := {|
  lower_at := fun _ c _ => [ascii_lower c];
  isdecimal := ascii_isdigit;
  isspace := ascii_isspace
|}.

Section Strings.
Context `{Unicode}.

Fixpoint lower_from (before s : str) : str :=
  match s with
  | [] => []
  | c :: after => lower_at before c after ++ lower_from (c :: before) after
  end.

(** [s.lower()] *)
Definition lower (s : str) : str := lower_from [] s.

Fixpoint lstrip (s : str) : str :=
  match s with
  | [] => []
  | c :: s' => if isspace c then lstrip s' else s
  end.

(** [s.rstrip()] *)
Definition rstrip (s : str) : str := rev (lstrip (rev s)).

(** [s.strip()] *)
Definition strip (s : str) : str := rstrip (lstrip s).
End Strings.

(** ** [strip_ansi]

    [ANSI_RE = re.compile(r'\x1b\[[0-9;]*m')]: ESC, an opening bracket,
    any number of ASCII digits and semicolons, and the letter m. *)

Definition ESC : N := 27.
Definition LBRACKET : N := 91.
Definition LETTER_m : N := 109.
Definition NEWLINE : N := 10.

Definition is_param (c : N) : bool := ascii_isdigit c || N.eqb c 59.

(** The greedy [[0-9;]*]: what is left after the parameters. *)
Fixpoint skip_params (s : str) : str :=
  match s with
  | [] => []
  | c :: s' => if is_param c then skip_params s' else s
  end.

(** An attempt to match [ANSI_RE] at the start of [s]: the text after
    the match.  The class [[0-9;]] excludes the letter m, so giving back
    parameters can never turn a failed match into a successful one. *)
Definition match_ansi (s : str) : option str :=
  match s with
  | c0 :: c1 :: s' =>
      if N.eqb c0 ESC && N.eqb c1 LBRACKET then
        match skip_params s' with
        | c :: rest => if N.eqb c LETTER_m then Some rest else None
        | [] => None
        end
      else None
  | _ => None
  end.

Definition inspect {A} (a : A) : { b : A | a = b } := exist _ a eq_refl.

(** [ANSI_RE.sub('', text)]: scan from the left; where the pattern
    matches, drop the match and go on after it; elsewhere keep the
    character and go on with the next one. *)
Equations strip_ansi (text : str) : str by wf (length text) lt :=
  strip_ansi [] := [];
  strip_ansi (c :: rest) with inspect (match_ansi (c :: rest)) := {
    | exist _ (Some rest') Heq := strip_ansi rest';
    | exist _ None _ := c :: strip_ansi rest }.
Next Obligation.
  assert (Hskip : forall s : str, length (skip_params s) <= length s).
  { induction s as [|d s IH]; simpl; [lia|].
    destruct (is_param d); simpl; lia. }
  destruct rest as [|c1 s']; try discriminate.
  destruct (N.eqb c ESC && N.eqb c1 LBRACKET); try discriminate.
  specialize (Hskip s').
  destruct (skip_params s') as [|d r]; try discriminate.
  destruct (N.eqb d LETTER_m); try discriminate.
  injection Heq as <-. simpl in *. lia.
Qed.

(** ** Exceptions and mutable state

    A method of the viewer runs on the state of the object, returns a
    value or raises, and leaves behind whatever it changed before it
    raised. *)

Inductive exn := TclError | OtherError.

Inductive outcome (A : Type) :=
| Ok (a : A)
| Raise (e : exn).
Arguments Ok {A} a.
Arguments Raise {A} e.

Definition M (S A : Type) : Type := S -> outcome A * S.

Definition ret {S A} (a : A) : M S A := fun s => (Ok a, s).

Definition raise {S A} (e : exn) : M S A := fun s => (Raise e, s).

Definition bind {S A B} (m : M S A) (k : A -> M S B) : M S B :=
  fun s =>
    match m s with
    | (Ok a, s') => k a s'
    | (Raise e, s') => (Raise e, s')
    end.

Definition get_self {S} : M S S := fun s => (Ok s, s).

Definition modify {S} (f : S -> S) : M S unit := fun s => (Ok tt, f s).

(** [try: body / except tk.TclError: pass] *)
Definition try_except_TclError {S} (body : M S unit) : M S unit :=
  fun s =>
    match body s with
    | (Raise TclError, s') => (Ok tt, s')
    | r => r
    end.

Declare Scope py_scope.
Delimit Scope py_scope with py.
Notation "x <- m ;; k" := (bind m (fun x => k))
  (at level 61, m at next level, right associativity) : py_scope.
Notation "m ;; k" := (bind m (fun _ => k))
  (at level 61, right associativity) : py_scope.
Open Scope py_scope.

(** ** The Tk text widget

    The widget holds tagged characters and always ends in a newline of
    its own, which can not be deleted.  [content] is what comes before
    that final newline.  Positions are offsets into the content followed
    by the final newline. *)

Inductive wstate := NORMAL | DISABLED.

Record tchar := { ch : N; tags : list str }.

Record Text := {
  content : list tchar;
  end_tags : list str;
  state : wstate;
  sees_end : bool
}.

Inductive tkindex :=
| LineCol (line col : Z)      (* "line.col", lines from 1, columns from 0 *)
| END                         (* just after the final newline *)
| END_1c                      (* 'end-1c': the final newline *)
| SEL_FIRST
| SEL_LAST.

(** [tk.SEL] *)
Definition SEL : str := py "sel".

Definition has_tag (t : str) (ts : list str) : bool := existsb (str_eqb t) ts.

Definition is_nl (c : tchar) : bool := N.eqb (ch c) NEWLINE.

Definition all_chars (w : Text) : list tchar :=
  content w ++ [{| ch := NEWLINE; tags := end_tags w |}].

(** Offset of the first character that has [n] newlines before it; past
    the last line it is the position after the final newline. *)
Fixpoint line_offset (cs : list tchar) (n : nat) {struct cs} : nat :=
  match n, cs with
  | O, _ => 0
  | S _, [] => 1
  | S n', c :: cs' => S (line_offset cs' (if is_nl c then n' else n))
  end.

(** Number of characters before the next newline. *)
Fixpoint line_len (cs : list tchar) : nat :=
  match cs with
  | [] => 0
  | c :: cs' => if is_nl c then 0 else S (line_len cs')
  end.

Fixpoint first_sel (cs : list tchar) : option nat :=
  match cs with
  | [] => None
  | c :: cs' =>
      if has_tag SEL (tags c) then Some 0
      else option_map S (first_sel cs')
  end.

(** Offset just after the last selected character. *)
Fixpoint last_sel (cs : list tchar) : option nat :=
  match cs with
  | [] => None
  | c :: cs' =>
      match last_sel cs' with
      | Some n => Some (S n)
      | None => if has_tag SEL (tags c) then Some 1 else None
      end
  end.

(** The offset an index stands for; the selection indices are an error
    when nothing carries the selection tag. *)
Definition offset_of (w : Text) (i : tkindex) : outcome nat :=
  match i with
  | LineCol l c =>
      let o := line_offset (content w) (Z.to_nat (l - 1)) in
      Ok (o + Nat.min (Z.to_nat c) (line_len (skipn o (content w))))
  | END => Ok (S (length (content w)))
  | END_1c => Ok (length (content w))
  | SEL_FIRST =>
      match first_sel (all_chars w) with
      | Some o => Ok o
      | None => Raise TclError
      end
  | SEL_LAST =>
      match last_sel (all_chars w) with
      | Some o => Ok o
      | None => Raise TclError
      end
  end.

Definition count_nl (cs : list tchar) : nat :=
  length (filter is_nl cs).

(** Length of the part after the last newline. *)
Definition last_col (cs : list tchar) : nat := line_len (rev cs).

Definition lift_outcome {S A} (r : outcome A) : M S A := fun s => (r, s).

(** [text.index(i)] as the pair (line, column). *)
Definition text_index (i : tkindex) : M Text (Z * Z) :=
  w <- get_self ;;
  o <- lift_outcome (offset_of w i) ;;
  let before := firstn o (all_chars w) in
  ret (Z.of_nat (S (count_nl before)), Z.of_nat (last_col before)).

(** Tags of an insertion without a tag list: those present on both
    neighbours of the insertion point. *)
Definition tags_around (w : Text) (o : nat) : list str :=
  match o with
  | O => []
  | S p =>
      match nth_error (all_chars w) p, nth_error (all_chars w) o with
      | Some a, Some b => filter (fun t => has_tag t (tags b)) (tags a)
      | _, _ => []
      end
  end.

Definition NUL : N := 0.

(** A text as it reaches Tk from tkinter: it ends at its first NUL
    character. *)
Fixpoint until_nul (s : str) : str :=
  match s with
  | [] => []
  | c :: s' => if N.eqb c NUL then [] else c :: until_nul s'
  end.

(** [text.insert(i, chars, *tagList)]; a disabled widget ignores it.
    What is inserted is the text up to its first NUL character. *)
Definition text_insert (i : tkindex) (chars0 : str)
    (tagList : option (list str)) : M Text unit :=
  w <- get_self ;;
  match state w with
  | DISABLED => ret tt
  | NORMAL =>
      let chars := until_nul chars0 in
      o0 <- lift_outcome (offset_of w i) ;;
      let o := Nat.min o0 (length (content w)) in
      let ts := match tagList with
                | Some l => l
                | None => tags_around w o
                end in
      let new := map (fun c => {| ch := c; tags := ts |}) chars in
      modify (fun w => {| content := firstn o (content w) ++ new ++
                                     skipn o (content w);
                          end_tags := end_tags w;
                          state := state w;
                          sees_end := match chars with
                                      | [] => sees_end w
                                      | _ :: _ => false
                                      end |})
  end.

(** Is offset [o] the first character of a line other than the first? *)
Definition at_line_start (cs : list tchar) (o : nat) : bool :=
  match o with
  | O => false
  | S p => match nth_error cs p with
           | Some c => is_nl c
           | None => false
           end
  end.

(** [text.delete(i1, i2)]; a disabled widget ignores it, and so does
    an empty range.  The final newline stays: a range that reaches past
    it ends before it, the final newline loses its tags, and a range
    that starts a line (not the first) takes the newline before it
    instead. *)
Definition text_delete (i1 i2 : tkindex) : M Text unit :=
  w <- get_self ;;
  match state w with
  | DISABLED => ret tt
  | NORMAL =>
      a0 <- lift_outcome (offset_of w i1) ;;
      b0 <- lift_outcome (offset_of w i2) ;;
      if Nat.ltb a0 b0 then
        let past := Nat.ltb (length (content w)) b0 in
        let b := if past then length (content w) else b0 in
        let a := if past && at_line_start (content w) a0
                 then pred a0 else a0 in
        modify (fun w => {| content := if Nat.ltb a b
                                       then firstn a (content w) ++
                                            skipn b (content w)
                                       else content w;
                            end_tags := if past then [] else end_tags w;
                            state := state w;
                            sees_end := sees_end w |})
      else ret tt
  end.

(** [text.get(i1, i2)] *)
Definition text_get (i1 i2 : tkindex) : M Text str :=
  w <- get_self ;;
  a <- lift_outcome (offset_of w i1) ;;
  b <- lift_outcome (offset_of w i2) ;;
  ret (map ch (skipn a (firstn b (all_chars w)))).

Definition add_tag (t : str) (c : tchar) : tchar :=
  if has_tag t (tags c) then c else {| ch := ch c; tags := t :: tags c |}.

(** [text.tag_add(t, i1, i2)] *)
Definition text_tag_add (t : str) (i1 i2 : tkindex) : M Text unit :=
  w <- get_self ;;
  a <- lift_outcome (offset_of w i1) ;;
  b <- lift_outcome (offset_of w i2) ;;
  let cs := content w in
  let inside := firstn (b - a) (skipn a cs) in
  let final_too := Nat.leb a (length cs) && Nat.ltb (length cs) b in
  modify (fun w =>
    {| content := firstn a cs ++ map (add_tag t) inside ++
                  skipn (a + length inside) cs;
       end_tags := if final_too && negb (has_tag t (end_tags w))
                   then t :: end_tags w else end_tags w;
       state := state w;
       sees_end := sees_end w |}).

(** [text.configure(state=s)] *)
Definition text_configure_state (s : wstate) : M Text unit :=
  modify (fun w => {| content := content w; end_tags := end_tags w;
                      state := s; sees_end := sees_end w |}).

(** [text.see(tk.END)] *)
Definition text_see_end : M Text unit :=
  modify (fun w => {| content := content w; end_tags := end_tags w;
                      state := state w; sees_end := true |}).

(** A freshly created [ScrolledText(..., state=tk.DISABLED)]. *)
Definition new_text : Text :=
  {| content := []; end_tags := []; state := DISABLED; sees_end := true |}.

(** ** The viewer *)

Definition LOG_FILES : list (str * str) :=
  [(py "/tmp/hebelki-out.log", py "stdout");
   (py "/tmp/hebelki-error.log", py "stderr")].

(** The state of a [DebugViewer] object that its methods read or
    write.  [after_queue] holds the [_insert] closures handed to
    [root.after(0, ...)] and not yet run by the main loop, oldest first:
    each closure has captured its [clean] text and its [tag]. *)
Record DebugViewer := {
  running : bool;
  auto_scroll_var : bool;
  filter_var : str;
  text : Text;
  clipboard : str;
  after_queue : list (str * str)
}.

Definition set_text (w : Text) (v : DebugViewer) : DebugViewer :=
  {| running := running v; auto_scroll_var := auto_scroll_var v;
     filter_var := filter_var v; text := w; clipboard := clipboard v;
     after_queue := after_queue v |}.

Definition set_clipboard (s : str) (v : DebugViewer) : DebugViewer :=
  {| running := running v; auto_scroll_var := auto_scroll_var v;
     filter_var := filter_var v; text := text v; clipboard := s;
     after_queue := after_queue v |}.

Definition set_after_queue (q : list (str * str)) (v : DebugViewer)
    : DebugViewer :=
  {| running := running v; auto_scroll_var := auto_scroll_var v;
     filter_var := filter_var v; text := text v; clipboard := clipboard v;
     after_queue := q |}.

Definition set_filter_var (s : str) (v : DebugViewer) : DebugViewer :=
  {| running := running v; auto_scroll_var := auto_scroll_var v;
     filter_var := s; text := text v; clipboard := clipboard v;
     after_queue := after_queue v |}.

Definition set_auto_scroll_var (b : bool) (v : DebugViewer) : DebugViewer :=
  {| running := running v; auto_scroll_var := b;
     filter_var := filter_var v; text := text v; clipboard := clipboard v;
     after_queue := after_queue v |}.

(** A method of [self.text], run on the viewer. *)
Definition self_text {A} (m : M Text A) : M DebugViewer A :=
  fun v => let (r, w) := m (text v) in (r, set_text w v).

(** [DebugViewer()]: the state after [__init__], for a given content of
    the system clipboard. *)
Definition init (clip : str) : DebugViewer :=
  {| running := true; auto_scroll_var := true; filter_var := [];
     text := new_text; clipboard := clip; after_queue := [] |}.

(** [root.after(0, _insert)] *)
Definition root_after (closure : str * str) : M DebugViewer unit :=
  modify (fun v => set_after_queue (after_queue v ++ [closure]) v).

Section Viewer.
Context `{Unicode}.

(** [n] characters of the class [\d], then the rest. *)
Fixpoint match_digits (n : nat) (s : str) : option str :=
  match n with
  | O => Some s
  | S n' =>
      match s with
      | c :: s' => if isdecimal c then match_digits n' s' else None
      | [] => None
      end
  end.

Definition match_char (c : N) (s : str) : option str :=
  match s with
  | d :: s' => if N.eqb c d then Some s' else None
  | [] => None
  end.

Definition and_then {A B} (o : option A) (k : A -> option B) : option B :=
  match o with Some a => k a | None => None end.

Definition HYPHEN : N := 45.

(** [re.match(r'^\d{4}-\d{2}-\d{2}', line)] is not [None]. *)
Definition match_date (line : str) : bool :=
  match and_then (match_digits 4 line) (fun s =>
        and_then (match_char HYPHEN s) (fun s =>
        and_then (match_digits 2 s) (fun s =>
        and_then (match_char HYPHEN s) (fun s =>
        match_digits 2 s)))) with
  | Some _ => true
  | None => false
  end.

Definition CHECK_MARK : str := [10003%N].        (* U+2713 *)
Definition WHITE_HEAVY_CHECK_MARK : str := [9989%N].  (* U+2705 *)

(** [DebugViewer.classify_line] *)
Definition classify_line (self : DebugViewer) (line stream : str) : str :=
  if str_eqb stream (py "stderr") then py "error" else
  let lower := lower line in
  if any_in [py "error"; py "err:"; py "failed"; py "exception";
             py "traceback"; py "unhandled"] lower
  then py "error" else
  if any_in [py "warn"; py "warning"; py "deprecated"] lower
  then py "warn" else
  if contains (py "[chatbot]") lower || contains (py "[tool") lower
  then py "tool" else
  if any_in [py "get /"; py "post /"; py "patch /"; py "delete /";
             py "put /"] lower
  then py "route" else
  if any_in [py "ready"; py "compiled"; py "success"; CHECK_MARK;
             WHITE_HEAVY_CHECK_MARK] lower
  then py "success" else
  if any_in [py "compiling"; py "building"; py "hmr"] lower
  then py "info" else
  if match_date line then py "dim" else
  [].

(** The closure [_insert] of [append_line], run by the main loop. *)
Definition _insert (clean tag : str) : M DebugViewer unit :=
  self_text (text_configure_state NORMAL) ;;
  (if truthy tag then
     self_text (text_insert END (clean ++ [NEWLINE]) (Some [tag]))
   else
     self_text (text_insert END (clean ++ [NEWLINE]) None)) ;;
  idx <- self_text (text_index END_1c) ;;
  let line_count := fst idx in
  (if (line_count >? 5000)%Z then
     self_text (text_delete (LineCol 1 0) (LineCol (line_count - 5000) 0))
   else ret tt) ;;
  self_text (text_configure_state DISABLED) ;;
  self <- get_self ;;
  if auto_scroll_var self then self_text text_see_end else ret tt.

(** [DebugViewer.append_line] *)
Definition append_line (line stream : str) : M DebugViewer unit :=
  self <- get_self ;;
  let clean := strip_ansi line in
  let filter_text := lower (strip (filter_var self)) in
  if truthy filter_text && negb (contains filter_text (lower clean))
  then ret tt
  else
    let tag := classify_line self clean stream in
    root_after (clean, tag).

(** One turn of [root.mainloop()] on the oldest [after] callback.  An
    exception of a callback is reported by Tk and the loop goes on. *)
Definition mainloop_step : M DebugViewer unit :=
  self <- get_self ;;
  match after_queue self with
  | [] => ret tt
  | (clean, tag) :: q =>
      modify (set_after_queue q) ;;
      (fun v => (Ok tt, snd (_insert clean tag v)))
  end.

Definition RETURN : N := 13.

(** [f.readline()] on a file opened with [open(filepath, "r")], whose
    decoded text is [data], at read position [pos].  The text mode
    knows three line ends, LF, CR and CR LF, and returns each of them as
    LF: [take_line] is the line that is returned (through the next
    line end, or what is left of the file), [line_width] the number of
    characters of the file it stands for. *)
Fixpoint take_line (s : str) : str :=
  match s with
  | [] => []
  | c :: s' =>
      if N.eqb c NEWLINE || N.eqb c RETURN then [NEWLINE]
      else c :: take_line s'
  end.

Fixpoint line_width (s : str) : nat :=
  match s with
  | [] => 0
  | c :: s' =>
      if N.eqb c NEWLINE then 1
      else if N.eqb c RETURN then
        match s' with
        | d :: _ => if N.eqb d NEWLINE then 2 else 1
        | [] => 1
        end
      else S (line_width s')
  end.

Definition readline (data : str) (pos : nat) : str :=
  take_line (skipn pos data).

(** What a tailer finds in one turn: at its path while it waits for
    the file, in its open file afterwards. *)
Inductive file_state :=
| Absent                 (* no file at the path; nothing to read *)
| Holds (data : str)     (* a file with this decoded text *)
| Unreadable.            (* [open] or [readline] raises: no permission,
                            bytes that can not be decoded *)

(** Where a [tail_file] thread stands. *)
Inductive tailer :=
| Waiting                (* polling for the file to exist *)
| Tailing (pos : nat)    (* file open, read position *)
| Returned.

(** One turn of the inner loop of [tail_file]: the argument passed on
    to [append_line], if any, and the new read position. *)
Definition tail_poll (data : str) (pos : nat) : option str * nat :=
  let line := readline data pos in
  if truthy line
  then (Some (rstrip line), pos + line_width (skipn pos data))
  else (None, pos).

(** One turn of [DebugViewer.tail_file].  Nothing in [tail_file]
    catches an exception: when [open] or [readline] raises, the thread
    ends with it.  Once the file is open the tailer does not look at
    the path again: [Absent] is then a turn in which nothing can be
    read. *)
Definition tail_file_step (file : file_state) (stream : str) (t : tailer)
    : M DebugViewer tailer :=
  self <- get_self ;;
  match t with
  | Waiting =>
      if running self then
        match file with
        | Absent => ret Waiting
        | Holds data => ret (Tailing (length data))
        | Unreadable => raise OtherError
        end
      else ret Returned
  | Tailing pos =>
      if running self then
        match file with
        | Holds data =>
            match tail_poll data pos with
            | (Some line, pos') =>
                append_line line stream ;; ret (Tailing pos')
            | (None, pos') => ret (Tailing pos')
            end
        | Absent => ret (Tailing pos)
        | Unreadable => raise OtherError
        end
      else ret Returned
  | Returned => ret Returned
  end.

(** [DebugViewer.copy_selection] *)
Definition copy_selection : M DebugViewer unit :=
  try_except_TclError (
    selected <- self_text (text_get SEL_FIRST SEL_LAST) ;;
    modify (set_clipboard []) ;;
    modify (fun v => set_clipboard (clipboard v ++ selected) v)).

(** [DebugViewer.select_all] *)
Definition select_all : M DebugViewer unit :=
  self_text (text_configure_state NORMAL) ;;
  self_text (text_tag_add SEL (LineCol 1 0) END) ;;
  self_text (text_configure_state DISABLED).

(** [DebugViewer.clear_log] *)
Definition clear_log : M DebugViewer unit :=
  self_text (text_configure_state NORMAL) ;;
  self_text (text_delete (LineCol 1 0) END) ;;
  self_text (text_configure_state DISABLED).

(** What can happen to a viewer while its window exists. *)
Inductive event :=
| EvAppend (line stream : str)     (* a tailer calls [append_line] *)
| EvMainloop                       (* the main loop runs a callback *)
| EvFilter (s : str)               (* the user edits the filter entry *)
| EvAutoScroll (b : bool)          (* the user toggles the check box *)
| EvClear
| EvSelectAll
| EvCopy.

Definition handle (e : event) : M DebugViewer unit :=
  match e with
  | EvAppend line stream => append_line line stream
  | EvMainloop => mainloop_step
  | EvFilter s => modify (set_filter_var s)
  | EvAutoScroll b => modify (set_auto_scroll_var b)
  | EvClear => clear_log
  | EvSelectAll => select_all
  | EvCopy => copy_selection
  end.

(** The state after a sequence of events. *)
Definition steps (es : list event) (v : DebugViewer) : DebugViewer :=
  fold_left (fun v e => snd (handle e v)) es v.

(** ** The display buffer: the lines of the widget

    Every line the viewer inserts ends in its own newline, so the
    entries of the buffer are the pieces of [content] that a newline
    closes.  An entry is the text of the line and the tags on its
    newline. *)
Fixpoint entries_from (cur : str) (cs : list tchar)
    : list (str * list str) :=
  match cs with
  | [] => []
  | c :: cs' =>
      if is_nl c then (rev cur, tags c) :: entries_from [] cs'
      else entries_from (ch c :: cur) cs'
  end.

Definition buffer (v : DebugViewer) : list (str * list str) :=
  entries_from [] (content (text v)).
End Viewer.

(** * The vocabulary of the properties *)

Definition is_ascii (c : N) : bool := (c <? 128)%N.

Definition all_ascii (s : str) : bool := forallb is_ascii s.

(** [k] occurs in [line] when the case of ASCII letters is ignored. *)
Definition contains_nocase (k line : str) : bool :=
  contains k (map ascii_lower line).

(** The texts that [ANSI_RE] matches in full. *)
Definition ansi_sequence (m : str) : Prop :=
  exists ps, forallb is_param ps = true /\
             m = ESC :: LBRACKET :: ps ++ [LETTER_m].

(** [Stripped s t]: [t] is [s] without the escape sequences that a scan
    from the left finds.  A character is kept exactly when no sequence
    starts at it; a sequence is dropped whole. *)
Inductive Stripped : str -> str -> Prop :=
| Stripped_nil : Stripped [] []
| Stripped_drop m rest out :
    ansi_sequence m -> Stripped rest out -> Stripped (m ++ rest) out
| Stripped_keep c rest out :
    (forall m r, ansi_sequence m -> c :: rest <> m ++ r) ->
    Stripped rest out -> Stripped (c :: rest) (c :: out).

(** Every ESC of [s] opens a complete escape sequence. *)
Definition well_escaped (s : str) : Prop :=
  forall a b, s = a ++ ESC :: b -> match_ansi (ESC :: b) <> None.

Definition opens_sequence (s : str) : bool :=
  match match_ansi s with Some _ => true | None => false end.

(** The same, decided. *)
Fixpoint well_escapedb (s : str) : bool :=
  match s with
  | [] => true
  | c :: rest =>
      (negb (N.eqb c ESC) || opens_sequence s) && well_escapedb rest
  end.

(** The content rules of [classify_line], on the lower-cased line. *)
Definition rule_error (l : str) : bool :=
  any_in [py "error"; py "err:"; py "failed"; py "exception";
          py "traceback"; py "unhandled"] l.

Definition rule_warn (l : str) : bool :=
  any_in [py "warn"; py "warning"; py "deprecated"] l.

Definition rule_tool (l : str) : bool :=
  contains (py "[chatbot]") l || contains (py "[tool") l.

Definition rule_route (l : str) : bool :=
  any_in [py "get /"; py "post /"; py "patch /"; py "delete /";
          py "put /"] l.

Definition rule_success (l : str) : bool :=
  any_in [py "ready"; py "compiled"; py "success"; CHECK_MARK;
          WHITE_HEAVY_CHECK_MARK] l.

Definition rule_info (l : str) : bool :=
  any_in [py "compiling"; py "building"; py "hmr"] l.

Definition http_methods : list str :=
  [py "get"; py "post"; py "patch"; py "delete"; py "put"].

(** The line holds an HTTP method, in any letter case, then [tail]. *)
Definition method_then (tail line : str) : bool :=
  existsb (fun m => contains_nocase (m ++ tail) line) http_methods.

(** The cap of [_insert], as a number of lines. *)
Definition cap : nat := Z.to_nat 5000.

(** The last [n] elements of a list. *)
Definition lastn {A} (n : nat) (l : list A) : list A :=
  skipn (length l - n) l.

(** The characters that an insertion of [chars] with tags [ts] adds. *)
Definition tagged (ts : list str) (chars : str) : list tchar :=
  map (fun c => {| ch := c; tags := ts |}) chars.

Definition no_newline (s : str) : bool :=
  forallb (fun c => negb (N.eqb c NEWLINE)) s.

Definition no_nul (s : str) : bool :=
  forallb (fun c => negb (N.eqb c NUL)) s.

Definition no_return (s : str) : bool :=
  forallb (fun c => negb (N.eqb c RETURN)) s.

(** A text that [_insert] turns into one line of the widget: it holds
    no newline, and no NUL that would cut it short. *)
Definition one_line (s : str) : bool := no_newline s && no_nul s.

(** A line of a file, without its line end: it holds neither LF nor
    CR. *)
Definition file_line (s : str) : bool := no_newline s && no_return s.

(** The content is empty or ends in a newline: no line is left open. *)
Definition ends_clean (cs : list tchar) : bool :=
  match rev cs with
  | [] => true
  | c :: _ => is_nl c
  end.

Definition insert_tags (w : Text) (tag : str) : list str :=
  if truthy tag then [tag] else tags_around w (length (content w)).

(** The content after the insertion of [_insert]. *)
Definition inserted (w : Text) (clean tag : str) : list tchar :=
  content w ++ tagged (insert_tags w tag) (until_nul (clean ++ [NEWLINE])).

(** Whether the view shows the end after [_insert]. *)
Definition view_after (v : DebugViewer) (clean : str) : bool :=
  if auto_scroll_var v then true
  else match until_nul (clean ++ [NEWLINE]) with
       | [] => sees_end (text v)
       | _ :: _ => false
       end.

(** The content after the deletion of [_insert]. *)
Definition evicted (cs : list tchar) : list tchar :=
  skipn (line_offset cs (count_nl cs - cap)) cs.

(** The tags of a line: its category, if it has one. *)
Definition tag_list (tag : str) : list str :=
  if truthy tag then [tag] else [].

(** The (line, stream) pairs that the events pass to [append_line]. *)
Fixpoint appended (es : list event) : list (str * str) :=
  match es with
  | [] => []
  | EvAppend line stream :: es' => (line, stream) :: appended es'
  | _ :: es' => appended es'
  end.

(** Nothing happens but tailers appending and the main loop running. *)
Definition tailing_only (es : list event) : bool :=
  forallb (fun e => match e with
                    | EvAppend _ _ | EvMainloop => true
                    | _ => false
                    end) es.

(** The buffer entry of a queued closure. *)
Definition queue_entry (c : str * str) : str * list str :=
  (fst c, tag_list (snd c)).

(** The characters that carry the selection tag. *)
Definition selection (w : Text) : list tchar :=
  filter (fun c => has_tag SEL (tags c)) (all_chars w).

(** The text of a file that holds the given lines, each ended by a
    newline. *)
Definition file_lines (ls : list str) : str :=
  concat (map (fun l => l ++ [NEWLINE]) ls).

(** What a tailer finds in its file, turn after turn, while lines are
    appended to [data]: between two turns the lines of one element of
    [chunks] are written, none of them by halves. *)
Fixpoint appends (data : str) (chunks : list (list str)) : list file_state :=
  match chunks with
  | [] => []
  | ls :: chunks' =>
      Holds (data ++ file_lines ls) :: appends (data ++ file_lines ls) chunks'
  end.

(** Some escape sequence starts somewhere in [s]. *)
Fixpoint has_sequence (s : str) : bool :=
  match s with
  | [] => false
  | _ :: rest => opens_sequence s || has_sequence rest
  end.

(** The tags that [__init__] gives a colour with [tag_config]. *)
Definition configured_tags : list str :=
  [py "error"; py "warn"; py "info"; py "success"; py "tool";
   py "stderr"; py "dim"; py "route"; py "timestamp"].

Section Vocabulary.
Context `{Unicode}.

(** What [append_line] hands to the main loop for a pair. *)
Definition closure_of (p : str * str) : str * str :=
  (strip_ansi (fst p),
   classify_line (init []) (strip_ansi (fst p)) (snd p)).

(** The buffer entry a (line, stream) pair ends up as. *)
Definition entry_of (p : str * str) : str * list str :=
  queue_entry (closure_of p).

(** The filter [append_line] applies: the text of the filter entry,
    stripped of white space around it, in lower case. *)
Definition active_filter (self : DebugViewer) : str :=
  lower (strip (filter_var self)).

(** [append_line] passes the line on to the main loop. *)
Definition accepted (self : DebugViewer) (line stream : str) : Prop :=
  append_line line stream self =
  (Ok tt, set_after_queue
            (after_queue self ++ [closure_of (line, stream)]) self).

(** [append_line] returns without a trace of the line. *)
Definition dropped (self : DebugViewer) (line stream : str) : Prop :=
  append_line line stream self = (Ok tt, self).

(** The viewer has no filter and no selection, and its buffer shows
    the closures [done] that the main loop has run so far. *)
Definition shows (v : DebugViewer) (done : list (str * str)) : Prop :=
  buffer v = lastn cap (map queue_entry done) /\
  ends_clean (content (text v)) = true /\
  end_tags (text v) = [] /\
  filter_var v = [] /\
  count_nl (content (text v)) <= cap /\
  forallb (fun c => one_line (fst c)) (after_queue v) = true.

(** What the inner loop of [tail_file] passes on, turn after turn,
    until a read returns nothing. *)
Fixpoint tail_polls (fuel : nat) (data : str) (pos : nat) : list str :=
  match fuel with
  | O => []
  | S fuel' =>
      match tail_poll data pos with
      | (Some line, pos') => line :: tail_polls fuel' data pos'
      | (None, _) => []
      end
  end.

(** [DebugViewer.tail_file] over the turns of its loops: [files] is
    what the thread finds at the path, turn after turn. *)
Fixpoint tail_file (files : list file_state) (stream : str) (t : tailer)
    : M DebugViewer tailer :=
  match files with
  | [] => ret t
  | file :: files' =>
      t' <- tail_file_step file stream t ;; tail_file files' stream t'
  end.

End Vocabulary.

(** Texts and viewers that the examples use. *)

(** The text of the counterexample: an escape sequence inside the two
    halves of another one. *)
Definition nested_escape : str :=
  ESC :: py "[" ++ ESC :: py "[0m" ++ py "m".

Definition coloured_line : str :=
  ESC :: py "[32m" ++ py "ready" ++ ESC :: py "[0m" ++ py " in 2s".

(** 5001 distinct one-character lines of the stdout stream, each
    followed by a turn of the main loop. *)
Definition many_lines : list event :=
  flat_map (fun k => [EvAppend [N.of_nat k + 32]%N (py "stdout");
                      EvMainloop])
           (seq 0 (Z.to_nat 5001)).

(** A viewer that shows one line and whose filter entry reads "Err ". *)
Definition filtering_viewer : DebugViewer :=
  set_filter_var (py "Err ")
    (steps (H := ascii_db) [EvAppend (py "ready") (py "stdout"); EvMainloop]
       (init [])).

(** A viewer that shows two lines, with a text on the clipboard. *)
Definition showing_viewer : DebugViewer :=
  steps (H := ascii_db)
    [EvAppend (py "ready in 2s") (py "stdout");
     EvAppend (py "boom") (py "stderr"); EvMainloop; EvMainloop]
    (init (py "kept")).

(** * Properties *)

(** ** Substrings *)

Lemma startswith_spec (p s : str) :
  startswith p s = true <-> exists r, s = p ++ r.
Proof.
  revert s; induction p as [|a p IH]; intros s; simpl.
  - split; [intros _; now exists s | reflexivity].
  - destruct s as [|b s].
    + split; [discriminate | intros [r Hr]; discriminate].
    + rewrite andb_true_iff, N.eqb_eq, IH. split.
      * intros [-> [r ->]]. now exists r.
      * intros [r [= -> ->]]. split; [reflexivity | now exists r].
Qed.

Lemma contains_spec (sub s : str) :
  contains sub s = true <-> exists a b, s = a ++ sub ++ b.
Proof.
  induction s as [|c s IH].
  - simpl. rewrite orb_false_r, startswith_spec. split.
    + intros [r Hr]. now exists [], r.
    + intros [a [b Hab]]. destruct a; [now exists b | discriminate].
  - cbn [contains]. rewrite orb_true_iff, startswith_spec, IH. split.
    + intros [[r Hr] | [a [b Hab]]].
      * now exists [], r.
      * exists (c :: a), b. simpl. now f_equal.
    + intros [[|c' a] [b Hab]].
      * left. now exists b.
      * right. injection Hab as _ Hab. now exists a, b.
Qed.

Lemma str_eqb_eq (a b : str) : str_eqb a b = true <-> a = b.
Proof.
  unfold str_eqb. destruct (list_eq_dec N.eq_dec a b); split;
    congruence.
Qed.

(** ** ANSI stripping *)

Example strip_ansi_ex :
  strip_ansi (ESC :: py "[31mred" ++ ESC :: py "[0m!") = py "red!".
Proof. vm_compute. reflexivity. Qed.

Lemma well_escapedb_sound (s : str) :
  well_escapedb s = true -> well_escaped s.
Proof.
  induction s as [|c rest IH]; intros Hb a b E.
  - destruct a; discriminate.
  - simpl in Hb. apply andb_true_iff in Hb as [Hc Hrest].
    destruct a as [|c' a]; injection E as -> ->.
    + rewrite N.eqb_refl in Hc. simpl in Hc. unfold opens_sequence in Hc.
      destruct (match_ansi (ESC :: b)); congruence.
    + now apply (IH Hrest a b).
Qed.

Lemma skip_params_spec (s : str) :
  exists ps, forallb is_param ps = true /\ s = ps ++ skip_params s /\
    match skip_params s with
    | c :: _ => is_param c = false
    | [] => True
    end.
Proof.
  induction s as [|c s IH]; simpl.
  - now exists [].
  - destruct IH as (ps & Hps & Hs & Hhd).
    destruct (is_param c) eqn:Hc.
    + exists (c :: ps). simpl. rewrite Hc, Hps. repeat split; trivial.
      now f_equal.
    + exists []. simpl. now rewrite Hc.
Qed.

Lemma skip_params_app (ps r : str) c :
  forallb is_param ps = true -> is_param c = false ->
  skip_params (ps ++ c :: r) = c :: r.
Proof.
  induction ps as [|p ps IH]; simpl; intros Hps Hc.
  - now rewrite Hc.
  - apply andb_true_iff in Hps as [-> Hps]. now apply IH.
Qed.

(** [match_ansi] finds a match at the start of [s] exactly when [s]
    begins with an escape sequence, and returns what follows it. *)
Lemma match_ansi_spec (s r : str) :
  match_ansi s = Some r <-> exists m, ansi_sequence m /\ s = m ++ r.
Proof.
  split.
  - destruct s as [|c0 [|c1 s']]; simpl; try discriminate.
    destruct (N.eqb c0 ESC) eqn:H0; try discriminate.
    destruct (N.eqb c1 LBRACKET) eqn:H1; try discriminate. simpl.
    destruct (skip_params_spec s') as (ps & Hps & Hs & _).
    destruct (skip_params s') as [|c rest]; try discriminate.
    destruct (N.eqb c LETTER_m) eqn:Hm; try discriminate.
    intros [= <-]. apply N.eqb_eq in H0, H1, Hm. subst.
    exists (ESC :: LBRACKET :: ps ++ [LETTER_m]). split.
    + now exists ps.
    + simpl. now rewrite <- app_assoc.
  - intros (m & (ps & Hps & ->) & ->). simpl.
    rewrite <- app_assoc. simpl.
    rewrite skip_params_app by (trivial; reflexivity).
    reflexivity.
Qed.

Lemma match_ansi_none (s : str) :
  match_ansi s = None <-> forall m r, ansi_sequence m -> s <> m ++ r.
Proof.
  split.
  - intros Hnone m r Hm ->.
    assert (match_ansi (m ++ r) = Some r) as E
      by (apply match_ansi_spec; now exists m).
    congruence.
  - intros Hno. destruct (match_ansi s) as [r|] eqn:E; trivial.
    apply match_ansi_spec in E as (m & Hm & ->).
    now destruct (Hno m r Hm).
Qed.

Lemma match_ansi_shorter (s r : str) :
  match_ansi s = Some r -> length r < length s.
Proof.
  intros (m & (ps & _ & ->) & ->)%match_ansi_spec.
  simpl. rewrite !length_app. simpl. lia.
Qed.

Lemma strip_ansi_nil : strip_ansi [] = [].
Proof. now simp strip_ansi. Qed.

Lemma strip_ansi_match c rest r :
  match_ansi (c :: rest) = Some r -> strip_ansi (c :: rest) = strip_ansi r.
Proof.
  intros E. simp strip_ansi.
  destruct (inspect (match_ansi (c :: rest))) as [[r'|] Hr];
    simp strip_ansi; congruence.
Qed.

Lemma strip_ansi_keep c rest :
  match_ansi (c :: rest) = None ->
  strip_ansi (c :: rest) = c :: strip_ansi rest.
Proof.
  intros E. simp strip_ansi.
  destruct (inspect (match_ansi (c :: rest))) as [[r'|] Hr];
    simp strip_ansi; congruence.
Qed.

(** Induction along the scan of [strip_ansi]. *)
Lemma strip_ansi_ind (P : str -> Prop) :
  P [] ->
  (forall c rest r, match_ansi (c :: rest) = Some r -> P r -> P (c :: rest)) ->
  (forall c rest, match_ansi (c :: rest) = None -> P rest -> P (c :: rest)) ->
  forall s, P s.
Proof.
  intros Hnil Hdrop Hkeep s.
  remember (length s) as n eqn:Hn. revert s Hn.
  induction n as [n IH] using lt_wf_ind. intros [|c rest] Hn; trivial.
  destruct (match_ansi (c :: rest)) as [r|] eqn:E.
  - apply (Hdrop _ _ _ E). apply (IH (length r)); trivial.
    apply match_ansi_shorter in E. lia.
  - apply (Hkeep _ _ E). apply (IH (length rest)); trivial.
    simpl in Hn. lia.
Qed.

Lemma strip_ansi_Stripped (s : str) : Stripped s (strip_ansi s).
Proof.
  induction s as [|c rest r E IH|c rest E IH] using strip_ansi_ind.
  - rewrite strip_ansi_nil. constructor.
  - rewrite (@strip_ansi_match _ _ _ E).
    apply match_ansi_spec in E as (m & Hm & ->). now constructor.
  - rewrite (@strip_ansi_keep _ _ E). constructor; trivial.
    now apply match_ansi_none.
Qed.

(** The scan is the only way to satisfy [Stripped]. *)
Lemma Stripped_unique (s t : str) : Stripped s t -> t = strip_ansi s.
Proof.
  induction 1 as [|m rest out Hm _ IH|c rest out Hno _ IH].
  - now rewrite strip_ansi_nil.
  - assert (match_ansi (m ++ rest) = Some rest) as E
      by (apply match_ansi_spec; now exists m).
    destruct Hm as (ps & _ & ->).
    change ((ESC :: LBRACKET :: ps ++ [LETTER_m]) ++ rest)
      with (ESC :: (LBRACKET :: ps ++ [LETTER_m]) ++ rest) in *.
    now rewrite (@strip_ansi_match _ _ _ E).
  - apply match_ansi_none in Hno.
    now rewrite (@strip_ansi_keep _ _ Hno), IH.
Qed.

Lemma strip_ansi_no_esc (s : str) : ~ In ESC s -> strip_ansi s = s.
Proof.
  induction s as [|c rest IH]; intros Hno.
  - apply strip_ansi_nil.
  - assert (match_ansi (c :: rest) = None) as E.
    { destruct rest as [|c1 s']; trivial. simpl.
      destruct (N.eqb c ESC) eqn:Hc; trivial.
      apply N.eqb_eq in Hc. destruct Hno. now left. }
    rewrite (@strip_ansi_keep _ _ E). f_equal. apply IH.
    intros Hin. apply Hno. now right.
Qed.

Lemma well_escaped_strip (s : str) :
  well_escaped s -> ~ In ESC (strip_ansi s).
Proof.
  induction s as [|c rest r E IH|c rest E IH] using strip_ansi_ind;
    intros Hwell.
  - now rewrite strip_ansi_nil.
  - rewrite (@strip_ansi_match _ _ _ E). apply IH.
    apply match_ansi_spec in E as (m & _ & E).
    intros a b ->. apply (Hwell (m ++ a) b).
    now rewrite E, <- app_assoc.
  - rewrite (@strip_ansi_keep _ _ E). intros [-> | Hin].
    + now apply (Hwell [] rest).
    + revert Hin. apply IH. intros a b ->. now apply (Hwell (c :: a) b).
Qed.

(** C1, counterexample: stripping the nested text leaves the sequence
    ESC [ m, which a second stripping removes, so stripping twice is
    not stripping once. *)
Lemma C1_not_idempotent :
  strip_ansi nested_escape = ESC :: py "[m" /\
  strip_ansi (strip_ansi nested_escape) = [] /\
  strip_ansi (strip_ansi nested_escape) <> strip_ansi nested_escape.
Proof. vm_compute. repeat split; discriminate. Qed.

(** C1, as amended: [strip_ansi] removes exactly the escape sequences
    that one scan from the left finds, whole, and keeps every other
    character in place (and its result is the only text with that
    property); when every ESC of the text opens a complete sequence the
    result holds no ESC and stripping it again changes nothing. *)
Theorem C1_strip_ansi_removes_sequences (s : str) :
  Stripped s (strip_ansi s) /\
  (forall t, Stripped s t -> t = strip_ansi s) /\
  (well_escapedb s = true ->
   ~ In ESC (strip_ansi s) /\ strip_ansi (strip_ansi s) = strip_ansi s).
Proof.
  split; [apply strip_ansi_Stripped|].
  split; [apply Stripped_unique|].
  intros Hwell%well_escapedb_sound.
  pose proof (@well_escaped_strip _ Hwell) as Hno.
  split; trivial. now apply strip_ansi_no_esc.
Qed.

Lemma C1_strip_ansi_witness :
  well_escapedb coloured_line = true /\
  strip_ansi (strip_ansi coloured_line) = strip_ansi coloured_line.
Proof.
  split; [reflexivity|].
  apply (C1_strip_ansi_removes_sequences coloured_line). reflexivity.
Defined.

(** ** Lower case and ASCII *)

Lemma ascii_lower_ascii (c : N) : is_ascii (ascii_lower c) = is_ascii c.
Proof.
  unfold ascii_lower, is_ascii.
  destruct ((65 <=? c)%N && (c <=? 90)%N) eqn:E; trivial.
  apply andb_true_iff in E as [_ E%N.leb_le].
  transitivity true; [|symmetry]; apply N.ltb_lt; lia.
Qed.

Lemma all_ascii_app (a b : str) :
  all_ascii (a ++ b) = all_ascii a && all_ascii b.
Proof. apply forallb_app. Qed.

Lemma all_ascii_map_lower (s : str) :
  all_ascii (map ascii_lower s) = all_ascii s.
Proof.
  induction s as [|c s IH]; simpl; trivial.
  now rewrite ascii_lower_ascii, IH.
Qed.

Section LowerCase.
Context `{Unicode}.

Lemma lower_from_ascii (before s : str) :
  all_ascii s = true -> lower_from before s = map ascii_lower s.
Proof.
  revert before; induction s as [|c s IH]; intros before Hs; simpl; trivial.
  simpl in Hs. apply andb_true_iff in Hs as [Hc Hs].
  rewrite lower_at_ascii by now apply N.ltb_lt.
  simpl. now rewrite IH.
Qed.

Lemma lower_ascii (s : str) :
  all_ascii s = true -> lower s = map ascii_lower s.
Proof. apply lower_from_ascii. Qed.

(** Lower-casing works character by character: the image of a text
    ends with the image of any of its suffixes (in its context). *)
Lemma lower_from_app (before u w : str) :
  exists x, lower_from before (u ++ w) = x ++ lower_from (rev u ++ before) w.
Proof.
  revert before; induction u as [|c u IH]; intros before; simpl.
  - now exists [].
  - destruct (IH (c :: before)) as [x Hx].
    exists (lower_at before c (u ++ w) ++ x).
    rewrite Hx, <- !app_assoc. reflexivity.
Qed.

(** An ASCII stretch of a text is lower-cased in place. *)
Lemma lower_from_ascii_app (before m v : str) :
  all_ascii m = true ->
  lower_from before (m ++ v) =
  map ascii_lower m ++ lower_from (rev m ++ before) v.
Proof.
  revert before; induction m as [|c m IH]; intros before Hm; simpl; trivial.
  simpl in Hm. apply andb_true_iff in Hm as [Hc Hm].
  rewrite lower_at_ascii by now apply N.ltb_lt.
  simpl. rewrite IH by trivial. now rewrite <- app_assoc.
Qed.

(** What [contains_nocase] finds, [k in line.lower()] finds too. *)
Lemma contains_nocase_lower (k line : str) :
  all_ascii k = true ->
  contains_nocase k line = true -> contains k (lower line) = true.
Proof.
  unfold contains_nocase. intros Hk (a & b & E)%contains_spec.
  apply map_eq_app in E as (u & mv & -> & <- & E).
  apply map_eq_app in E as (m & v & -> & <- & <-).
  rewrite all_ascii_map_lower in Hk.
  apply contains_spec. unfold lower.
  destruct (lower_from_app [] u (m ++ v)) as [x ->].
  rewrite lower_from_ascii_app by trivial.
  now exists x, (lower_from (rev m ++ rev u ++ []) v).
Qed.

Lemma match_digits_suffix (n : nat) (s r : str) :
  match_digits n s = Some r -> exists p, s = p ++ r.
Proof.
  revert s; induction n as [|n IH]; intros s; simpl.
  - intros [= ->]. now exists [].
  - destruct s as [|c s]; try discriminate.
    destruct (isdecimal c); try discriminate.
    intros [p ->]%IH. now exists (c :: p).
Qed.
End LowerCase.

Lemma match_digits_ascii `{U : Unicode} (n : nat) (s : str) :
  all_ascii s = true ->
  match_digits (H := U) n s = match_digits (H := ascii_db) n s.
Proof.
  revert s; induction n as [|n IH]; intros s Hs; simpl; trivial.
  destruct s as [|c s]; trivial.
  simpl in Hs. apply andb_true_iff in Hs as [Hc Hs].
  rewrite isdecimal_ascii by now apply N.ltb_lt.
  simpl. destruct (ascii_isdigit c); trivial. now apply IH.
Qed.

Lemma match_char_ascii (c : N) (s r : str) :
  all_ascii s = true -> match_char c s = Some r -> all_ascii r = true.
Proof.
  destruct s as [|d s]; simpl; try discriminate.
  intros [_ Hs]%andb_true_iff. destruct (N.eqb c d); try discriminate.
  now intros [= <-].
Qed.

Lemma match_digits_keeps_ascii `{U : Unicode} (n : nat) (s r : str) :
  all_ascii s = true -> match_digits n s = Some r -> all_ascii r = true.
Proof.
  intros Hs [p ->]%match_digits_suffix.
  rewrite all_ascii_app in Hs. now apply andb_true_iff in Hs as [_ Hs].
Qed.

Lemma match_date_ascii `{U : Unicode} (line : str) :
  all_ascii line = true ->
  match_date (H := U) line = match_date (H := ascii_db) line.
Proof.
  intros Hl. unfold match_date.
  rewrite (match_digits_ascii 4 _ Hl).
  destruct (match_digits (H := ascii_db) 4 line) as [s1|] eqn:E1; trivial.
  apply (match_digits_keeps_ascii _ _ Hl) in E1. cbn [and_then].
  destruct (match_char HYPHEN s1) as [s2|] eqn:E2; trivial.
  apply (match_char_ascii _ _ E1) in E2. cbn [and_then].
  rewrite (match_digits_ascii 2 _ E2).
  destruct (match_digits (H := ascii_db) 2 s2) as [s3|] eqn:E3; trivial.
  apply (match_digits_keeps_ascii _ _ E2) in E3. cbn [and_then].
  destruct (match_char HYPHEN s3) as [s4|] eqn:E4; trivial.
  apply (match_char_ascii _ _ E3) in E4. cbn [and_then].
  now rewrite (match_digits_ascii 2 _ E4).
Qed.

(** On an ASCII line the classification does not depend on the
    Unicode database. *)
Lemma classify_line_ascii `{U : Unicode} (self : DebugViewer)
    (line stream : str) :
  all_ascii line = true ->
  classify_line (H := U) self line stream =
  classify_line (H := ascii_db) self line stream.
Proof.
  intros Hl. unfold classify_line.
  rewrite (lower_ascii (H := U) _ Hl), (lower_ascii (H := ascii_db) _ Hl).
  now rewrite (match_date_ascii _ Hl).
Qed.

(** ** Classification *)

Lemma classify_line_rules `{Unicode} (self : DebugViewer)
    (line stream : str) :
  classify_line self line stream =
  if str_eqb stream (py "stderr") then py "error" else
  if rule_error (lower line) then py "error" else
  if rule_warn (lower line) then py "warn" else
  if rule_tool (lower line) then py "tool" else
  if rule_route (lower line) then py "route" else
  if rule_success (lower line) then py "success" else
  if rule_info (lower line) then py "info" else
  if match_date line then py "dim" else [].
Proof. reflexivity. Qed.

Lemma any_in_true (keys : list str) (k l : str) :
  In k keys -> contains k l = true -> any_in keys l = true.
Proof.
  intros Hin Hk. apply existsb_exists. now exists k.
Qed.

(** C3: a line of the stderr stream is classified as an error, whatever
    it says. *)
Theorem C3_stderr_is_error `{Unicode} (self : DebugViewer) (line : str) :
  classify_line self line (py "stderr") = py "error".
Proof. reflexivity. Qed.

Lemma rule_error_nocase `{Unicode} (line : str) :
  contains_nocase (py "error") line = true -> rule_error (lower line) = true.
Proof.
  intros Hc. apply (any_in_true _ (py "error")); [now left|].
  now apply contains_nocase_lower.
Qed.

(** C4: the rules are tried in a fixed order and the first match
    decides.  The dated line of the specification is dim; a dated
    stdout line that contains "error" (in any letter case) is an error;
    and a line is dim only if it is dated, does not come from stderr
    and none of the six earlier content rules matches it. *)
Theorem C4_first_match_wins `{Unicode} (self : DebugViewer) :
  classify_line self (py "2024-01-01 starting up") (py "stdout") = py "dim" /\
  (forall line,
     match_date line = true ->
     contains_nocase (py "error") line = true ->
     classify_line self line (py "stdout") = py "error") /\
  (forall line stream,
     classify_line self line stream = py "dim" ->
     match_date line = true /\
     str_eqb stream (py "stderr") = false /\
     rule_error (lower line) = false /\
     rule_warn (lower line) = false /\
     rule_tool (lower line) = false /\
     rule_route (lower line) = false /\
     rule_success (lower line) = false /\
     rule_info (lower line) = false).
Proof.
  split; [|split].
  - rewrite classify_line_ascii by reflexivity. reflexivity.
  - intros line _ Herr. rewrite classify_line_rules.
    now rewrite (rule_error_nocase _ Herr).
  - intros line stream. rewrite classify_line_rules.
    destruct (str_eqb stream (py "stderr")); [discriminate|].
    destruct (rule_error (lower line)); [discriminate|].
    destruct (rule_warn (lower line)); [discriminate|].
    destruct (rule_tool (lower line)); [discriminate|].
    destruct (rule_route (lower line)); [discriminate|].
    destruct (rule_success (lower line)); [discriminate|].
    destruct (rule_info (lower line)); [discriminate|].
    destruct (match_date line); [|discriminate].
    intros _. repeat split.
Qed.

Lemma C4_first_match_wins_witness :
  match_date (H := ascii_db) (py "2024-01-01 ERROR boom") = true /\
  contains_nocase (py "error") (py "2024-01-01 ERROR boom") = true /\
  classify_line (H := ascii_db) (init []) (py "2024-01-01 ERROR boom")
    (py "stdout") = py "error" /\
  classify_line (H := ascii_db) (init []) (py "2024-01-01 starting up")
    (py "stdout") = py "dim" /\
  rule_error (lower (H := ascii_db) (py "2024-01-01 starting up")) = false.
Proof.
  destruct (C4_first_match_wins (H := ascii_db) (init []))
    as (Hdim & Herr & Honly).
  split; [reflexivity|]. split; [reflexivity|].
  split; [apply Herr; reflexivity|].
  split; [exact Hdim|].
  apply (Honly (py "2024-01-01 starting up") (py "stdout")). reflexivity.
Defined.

Lemma rule_route_method `{Unicode} (line : str) :
  method_then (py " /") line = true -> rule_route (lower line) = true.
Proof.
  intros (m & Hm & Hc)%existsb_exists.
  apply (any_in_true _ (m ++ py " /")).
  - simpl in Hm. decompose [or] Hm; subst; simpl; tauto.
  - apply contains_nocase_lower; trivial.
    simpl in Hm. decompose [or] Hm; subst; try reflexivity. contradiction.
Qed.

(** C6, counterexample: a stdout line in which GET is directly followed
    by the slash matches none of the earlier rules and is not a route:
    it gets no tag at all. *)
Lemma C6_method_slash_is_no_route :
  let line := py "GET/api/users 200" in
  rule_error (lower (H := ascii_db) line) = false /\
  rule_warn (lower (H := ascii_db) line) = false /\
  rule_tool (lower (H := ascii_db) line) = false /\
  method_then (py "/") line = true /\
  classify_line (H := ascii_db) (init []) line (py "stdout") = [] /\
  classify_line (H := ascii_db) (init []) line (py "stdout") <> py "route".
Proof. vm_compute. repeat split; discriminate. Qed.

(** C6, as amended: a stdout line that matches none of the error, warn
    and tool rules and holds an HTTP method (GET, POST, PATCH, DELETE or
    PUT, in any letter case) followed by one space and a slash is a
    route; so is the request line of the specification. *)
Theorem C6_method_space_slash_is_route `{Unicode} (self : DebugViewer) :
  (forall line,
     rule_error (lower line) = false ->
     rule_warn (lower line) = false ->
     rule_tool (lower line) = false ->
     method_then (py " /") line = true ->
     classify_line self line (py "stdout") = py "route") /\
  classify_line self (py "GET /api/users 200") (py "stdout") = py "route".
Proof.
  split.
  - intros line He Hw Ht Hm. rewrite classify_line_rules, He, Hw, Ht.
    now rewrite (rule_route_method _ Hm).
  - rewrite classify_line_ascii by reflexivity. reflexivity.
Qed.

Lemma C6_method_space_slash_witness :
  method_then (py " /") (py "handled Post /api/bookings in 12ms") = true /\
  classify_line (H := ascii_db) (init [])
    (py "handled Post /api/bookings in 12ms") (py "stdout") = py "route".
Proof.
  split; [reflexivity|].
  apply (C6_method_space_slash_is_route (H := ascii_db) (init []));
    reflexivity.
Defined.

(** C8: the category depends on the text of the line and on the stream
    only.  Two viewers in any two states classify alike, and the tag
    that [append_line] hands to the main loop is the one any viewer
    would compute, whatever the filter, the buffer or the queue hold. *)
Theorem C8_classification_is_deterministic `{Unicode}
    (self1 self2 : DebugViewer) (line stream : str) :
  classify_line self1 line stream = classify_line self2 line stream /\
  (after_queue (snd (append_line line stream self1)) = after_queue self1 \/
   after_queue (snd (append_line line stream self1)) =
   after_queue self1 ++
   [(strip_ansi line, classify_line self2 (strip_ansi line) stream)]).
Proof.
  split; [reflexivity|].
  unfold append_line, bind, get_self.
  destruct (truthy _ && negb _); [now left | now right].
Qed.

(** C10: the route rule looks for its five patterns anywhere in the
    lower-cased line: a stdout line that matches none of the error,
    warn and tool rules and whose lower-case form holds one of the
    patterns is a route, also when the method is the end of a longer
    word. *)
Theorem C10_route_is_substring_match `{Unicode} (self : DebugViewer) :
  (forall line k,
     In k [py "get /"; py "post /"; py "patch /"; py "delete /";
           py "put /"] ->
     contains k (lower line) = true ->
     rule_error (lower line) = false ->
     rule_warn (lower line) = false ->
     rule_tool (lower line) = false ->
     classify_line self line (py "stdout") = py "route") /\
  classify_line self (py "forget /tmp/x") (py "stdout") = py "route".
Proof.
  split.
  - intros line k Hk Hc He Hw Ht.
    rewrite classify_line_rules, He, Hw, Ht.
    unfold rule_route. now rewrite (any_in_true _ _ _ Hk Hc).
  - rewrite classify_line_ascii by reflexivity. reflexivity.
Qed.

Lemma C10_route_is_substring_witness :
  In (py "put /") [py "get /"; py "post /"; py "patch /"; py "delete /";
                   py "put /"] /\
  contains (py "put /") (lower (H := ascii_db) (py "input /dev/null")) = true /\
  classify_line (H := ascii_db) (init []) (py "input /dev/null")
    (py "stdout") = py "route".
Proof.
  assert (Hin : In (py "put /") [py "get /"; py "post /"; py "patch /";
                                 py "delete /"; py "put /"])
    by (simpl; tauto).
  split; [exact Hin|]. split; [reflexivity|].
  apply (proj1 (C10_route_is_substring_match (H := ascii_db) (init []))
           _ _ Hin); reflexivity.
Defined.

(** ** Lines of the widget *)

Lemma count_nl_cons (c : tchar) (cs : list tchar) :
  count_nl (c :: cs) = if is_nl c then S (count_nl cs) else count_nl cs.
Proof. unfold count_nl. simpl. now destruct (is_nl c). Qed.

Lemma count_nl_app (a b : list tchar) :
  count_nl (a ++ b) = count_nl a + count_nl b.
Proof. unfold count_nl. now rewrite filter_app, length_app. Qed.

Lemma line_offset_0 (cs : list tchar) : line_offset cs 0 = 0.
Proof. now destruct cs. Qed.

Lemma line_offset_le (cs : list tchar) (k : nat) :
  k <= count_nl cs -> line_offset cs k <= length cs.
Proof.
  revert k; induction cs as [|c cs IH]; intros [|k] Hk; simpl; try lia.
  - unfold count_nl in Hk. simpl in Hk. lia.
  - rewrite count_nl_cons in Hk. apply le_n_S, IH.
    destruct (is_nl c); lia.
Qed.

Lemma count_nl_skip_lines (cs : list tchar) (k : nat) :
  k <= count_nl cs ->
  count_nl (skipn (line_offset cs k) cs) = count_nl cs - k.
Proof.
  revert k; induction cs as [|c cs IH]; intros [|k] Hk.
  - reflexivity.
  - unfold count_nl in Hk. simpl in Hk. lia.
  - simpl. lia.
  - cbn [line_offset skipn]. rewrite count_nl_cons in *.
    rewrite IH; destruct (is_nl c); lia.
Qed.

Lemma entries_from_length (cur : str) (cs : list tchar) :
  length (entries_from cur cs) = count_nl cs.
Proof.
  revert cur; induction cs as [|c cs IH]; intros cur; trivial.
  rewrite count_nl_cons. simpl. destruct (is_nl c); simpl; now rewrite IH.
Qed.

(** Deleting up to the start of a line drops whole entries. *)
Lemma entries_from_skip_lines (cs : list tchar) (cur : str) (k : nat) :
  S k <= count_nl cs ->
  entries_from [] (skipn (line_offset cs (S k)) cs) =
  skipn (S k) (entries_from cur cs).
Proof.
  revert cur k; induction cs as [|c cs IH]; intros cur k Hk.
  - unfold count_nl in Hk. simpl in Hk. lia.
  - rewrite count_nl_cons in Hk. cbn [line_offset skipn entries_from].
    destruct (is_nl c).
    + cbn [skipn]. destruct k as [|k].
      * now rewrite line_offset_0.
      * apply IH. lia.
    + apply IH. lia.
Qed.

Lemma skip_lines_buffer (cs : list tchar) (k : nat) :
  k <= count_nl cs ->
  entries_from [] (skipn (line_offset cs k) cs) =
  skipn k (entries_from [] cs).
Proof.
  destruct k as [|k]; intros Hk.
  - now rewrite line_offset_0.
  - now apply entries_from_skip_lines.
Qed.

Lemma ends_clean_app (a b : list tchar) :
  b <> [] -> ends_clean (a ++ b) = ends_clean b.
Proof.
  intros Hb. unfold ends_clean. rewrite rev_app_distr.
  destruct (rev b) as [|x r] eqn:E; trivial.
  apply (f_equal (@rev tchar)) in E. rewrite rev_involutive in E.
  now destruct Hb.
Qed.

Lemma entries_from_app_clean (a b : list tchar) (cur : str) :
  a <> [] -> ends_clean a = true ->
  entries_from cur (a ++ b) = entries_from cur a ++ entries_from [] b.
Proof.
  revert cur; induction a as [|c a IH]; intros cur Ha Hclean; [easy|].
  destruct a as [|c' a].
  - unfold ends_clean in Hclean. simpl in *. now rewrite Hclean.
  - change (c :: c' :: a) with ([c] ++ c' :: a) in Hclean.
    rewrite ends_clean_app in Hclean by discriminate.
    change ((c :: c' :: a) ++ b) with (c :: (c' :: a) ++ b).
    cbn [entries_from]. destruct (is_nl c).
    + rewrite IH by (trivial; discriminate). reflexivity.
    + now apply IH.
Qed.

Lemma buffer_app_clean (a b : list tchar) :
  ends_clean a = true ->
  entries_from [] (a ++ b) = entries_from [] a ++ entries_from [] b.
Proof.
  destruct a as [|c a]; [reflexivity|].
  intros Hc. now apply entries_from_app_clean.
Qed.

Lemma entries_from_line (ts : list str) (cur clean : str) :
  no_newline clean = true ->
  entries_from cur (tagged ts (clean ++ [NEWLINE])) =
  [(rev cur ++ clean, ts)].
Proof.
  revert cur; induction clean as [|c clean IH]; intros cur Hc; simpl.
  - now rewrite app_nil_r.
  - simpl in Hc. apply andb_true_iff in Hc as [Hc Hclean].
    unfold is_nl. simpl. apply negb_true_iff in Hc. rewrite Hc.
    rewrite IH by trivial. simpl. now rewrite <- app_assoc.
Qed.

Lemma ends_clean_skip_lines (cs : list tchar) (k : nat) :
  k <= count_nl cs -> ends_clean cs = true ->
  ends_clean (skipn (line_offset cs k) cs) = true.
Proof.
  intros Hk Hc. pose proof (line_offset_le cs Hk) as Hle.
  destruct (skipn (line_offset cs k) cs) as [|x r] eqn:E; trivial.
  rewrite <- (firstn_skipn (line_offset cs k) cs) in Hc.
  rewrite E in Hc. rewrite ends_clean_app in Hc; trivial. discriminate.
Qed.

Lemma lastn_length {A} (n : nat) (l : list A) :
  length (lastn n l) = Nat.min n (length l).
Proof. unfold lastn. rewrite length_skipn. lia. Qed.

Lemma lastn_all {A} (n : nat) (l : list A) :
  length l <= n -> lastn n l = l.
Proof.
  intros Hl. unfold lastn. replace (length l - n) with 0 by lia.
  reflexivity.
Qed.

Lemma lastn_app_lastn {A} (n : nat) (a b : list A) :
  lastn n (lastn n a ++ b) = lastn n (a ++ b).
Proof.
  unfold lastn. rewrite !length_app, length_skipn.
  rewrite !skipn_app, length_skipn, skipn_skipn.
  f_equal.
  - f_equal. lia.
  - f_equal. lia.
Qed.

(** ** What the widget operations of [_insert] do *)

Lemma text_insert_END (w : Text) (chars : str) (tl : option (list str)) :
  state w = NORMAL ->
  text_insert END chars tl w =
  (Ok tt,
   {| content := content w ++
        tagged (match tl with
                | Some l => l
                | None => tags_around w (length (content w))
                end) (until_nul chars);
      end_tags := end_tags w;
      state := NORMAL;
      sees_end := match until_nul chars with
                  | [] => sees_end w
                  | _ :: _ => false
                  end |}).
Proof.
  intros Hs. unfold text_insert, bind, get_self, lift_outcome, modify.
  rewrite Hs. cbn [offset_of].
  rewrite Nat.min_r by lia.
  rewrite firstn_all, skipn_all, app_nil_r, Hs. reflexivity.
Qed.

Lemma text_index_END_1c (w : Text) :
  text_index END_1c w =
  (Ok (Z.of_nat (S (count_nl (content w))),
       Z.of_nat (last_col (content w))), w).
Proof.
  unfold text_index, bind, get_self, lift_outcome, ret, all_chars.
  cbn [offset_of].
  rewrite firstn_app, firstn_all, Nat.sub_diag. simpl firstn.
  now rewrite app_nil_r.
Qed.

Lemma text_delete_lines (w : Text) (k : nat) :
  state w = NORMAL -> k <= count_nl (content w) ->
  text_delete (LineCol 1 0) (LineCol (Z.of_nat (S k)) 0) w =
  (Ok tt,
   {| content := skipn (line_offset (content w) k) (content w);
      end_tags := end_tags w;
      state := NORMAL;
      sees_end := sees_end w |}).
Proof.
  intros Hs Hk. pose proof (line_offset_le _ Hk) as Hle.
  unfold text_delete, bind, get_self, lift_outcome, modify, ret.
  rewrite Hs. cbn [offset_of].
  replace (Z.to_nat (1 - 1)) with 0 by lia.
  replace (Z.to_nat (Z.of_nat (S k) - 1)) with k by lia.
  replace (Z.to_nat 0) with 0 by lia.
  rewrite line_offset_0, !Nat.min_0_l, !Nat.add_0_r.
  destruct (Nat.ltb_spec (length (content w)) (line_offset (content w) k));
    [lia|].
  cbn [andb].
  destruct (Nat.ltb_spec 0 (line_offset (content w) k)) as [Hpos|Hzero].
  - now rewrite Hs.
  - replace (line_offset (content w) k) with 0 by lia.
    destruct w; simpl in *; now subst.
Qed.

Lemma self_text_run {A} (m : M Text A) (v : DebugViewer) r w :
  m (text v) = (r, w) -> self_text m v = (r, set_text w v).
Proof. intros E. unfold self_text. now rewrite E. Qed.

Lemma self_text_run' {A} (m : M Text A) (v v' : DebugViewer) r w :
  m (text v) = (r, w) -> set_text w v = v' -> self_text m v = (r, v').
Proof. intros E <-. now apply self_text_run. Qed.

Lemma _insert_run (clean tag : str) (v : DebugViewer) :
  _insert clean tag v =
  (Ok tt,
   set_text {| content := evicted (inserted (text v) clean tag);
               end_tags := end_tags (text v);
               state := DISABLED;
               sees_end := view_after v clean |} v).
Proof.
  unfold _insert, bind.
  cbn [self_text text_configure_state modify].
  set (c1 := inserted (text v) clean tag).
  set (s2 := match until_nul (clean ++ [NEWLINE]) with
             | [] => sees_end (text v)
             | _ :: _ => false
             end).
  set (w2 := {| content := c1; end_tags := end_tags (text v);
                state := NORMAL; sees_end := s2 |}).
  assert (E2 : (if truthy tag
                then self_text (text_insert END (clean ++ [NEWLINE])
                                  (Some [tag]))
                else self_text (text_insert END (clean ++ [NEWLINE]) None))
                 (set_text {| content := content (text v);
                              end_tags := end_tags (text v);
                              state := NORMAL;
                              sees_end := sees_end (text v) |} v)
               = (Ok tt, set_text w2 v)).
  { unfold w2, c1, inserted, insert_tags.
    destruct (truthy tag);
      (eapply self_text_run';
       [rewrite text_insert_END by reflexivity; reflexivity
       |reflexivity]). }
  rewrite E2. clear E2.
  rewrite (self_text_run (text_index END_1c) (set_text w2 v)
             (text_index_END_1c w2)).
  change (set_text w2 (set_text w2 v)) with (set_text w2 v).
  cbn [fst]. change (content w2) with c1.
  assert (E4 : (if (Z.of_nat (S (count_nl c1)) >? 5000)%Z
                then self_text
                       (text_delete (LineCol 1 0)
                          (LineCol (Z.of_nat (S (count_nl c1)) - 5000) 0))
                else ret tt) (set_text w2 v)
               = (Ok tt,
                  set_text {| content := evicted c1;
                              end_tags := end_tags (text v);
                              state := NORMAL; sees_end := s2 |} v)).
  { unfold evicted.
    destruct (Z.gtb_spec (Z.of_nat (S (count_nl c1))) 5000) as [Hgt|Hle].
    - replace (Z.of_nat (S (count_nl c1)) - 5000)%Z
        with (Z.of_nat (S (count_nl c1 - cap))) by (unfold cap; lia).
      eapply self_text_run'; [|reflexivity].
      apply text_delete_lines; [reflexivity|]. simpl. lia.
    - replace (count_nl c1 - cap) with 0 by (unfold cap; lia).
      now rewrite line_offset_0. }
  rewrite E4. clear E4.
  unfold get_self, view_after. fold s2. cbn.
  now destruct (auto_scroll_var v).
Qed.

Lemma count_nl_evicted (cs : list tchar) : count_nl (evicted cs) <= cap.
Proof.
  unfold evicted. rewrite count_nl_skip_lines; lia.
Qed.

Lemma buffer_evicted (cs : list tchar) :
  entries_from [] (evicted cs) = lastn cap (entries_from [] cs).
Proof.
  unfold evicted, lastn. rewrite entries_from_length.
  apply skip_lines_buffer. lia.
Qed.

Lemma ends_clean_evicted (cs : list tchar) :
  ends_clean cs = true -> ends_clean (evicted cs) = true.
Proof. apply ends_clean_skip_lines. lia. Qed.

Lemma until_nul_id (s : str) : no_nul s = true -> until_nul s = s.
Proof.
  induction s as [|c s IH]; trivial. simpl.
  intros [Hc Hs]%andb_true_iff. apply negb_true_iff in Hc.
  rewrite Hc. now rewrite IH.
Qed.

Lemma until_nul_line (clean : str) :
  no_nul clean = true ->
  until_nul (clean ++ [NEWLINE]) = clean ++ [NEWLINE].
Proof.
  intros Hn. apply until_nul_id. unfold no_nul in *.
  now rewrite forallb_app, Hn.
Qed.

Lemma one_line_split (s : str) :
  one_line s = true -> no_newline s = true /\ no_nul s = true.
Proof. apply andb_true_iff. Qed.

Lemma ends_clean_inserted (w : Text) (clean tag : str) :
  no_nul clean = true -> ends_clean (inserted w clean tag) = true.
Proof.
  intros Hn. unfold inserted, tagged.
  rewrite until_nul_line by trivial. rewrite map_app. simpl.
  rewrite app_assoc. now rewrite ends_clean_app by discriminate.
Qed.

Lemma buffer_inserted (w : Text) (clean tag : str) :
  ends_clean (content w) = true -> one_line clean = true ->
  entries_from [] (inserted w clean tag) =
  entries_from [] (content w) ++ [(clean, insert_tags w tag)].
Proof.
  intros Hc [Hn Hz]%one_line_split. unfold inserted.
  rewrite until_nul_line by trivial.
  rewrite buffer_app_clean by trivial. now rewrite entries_from_line.
Qed.

Lemma buffer_length (v : DebugViewer) :
  length (buffer v) = count_nl (content (text v)).
Proof. apply entries_from_length. Qed.

(** [_insert] on the buffer: the new line goes to the end, and the
    oldest lines leave until at most [cap] are left. *)
Lemma buffer_insert (clean tag : str) (v : DebugViewer) :
  ends_clean (content (text v)) = true -> one_line clean = true ->
  buffer (snd (_insert clean tag v)) =
  lastn cap (buffer v ++ [(clean, insert_tags (text v) tag)]).
Proof.
  intros Hc Hn. rewrite _insert_run. unfold buffer. cbn [snd set_text text content].
  now rewrite buffer_evicted, buffer_inserted.
Qed.

Lemma mainloop_step_empty (v : DebugViewer) :
  after_queue v = [] -> mainloop_step v = (Ok tt, v).
Proof.
  intros E. unfold mainloop_step, bind, get_self. now rewrite E.
Qed.

Lemma mainloop_step_run (v : DebugViewer) clean tag q :
  after_queue v = (clean, tag) :: q ->
  mainloop_step v = (Ok tt, snd (_insert clean tag (set_after_queue q v))).
Proof.
  intros E. unfold mainloop_step, bind, get_self. now rewrite E.
Qed.

Lemma filter_has_tag_nil (ts : list str) :
  filter (fun t => has_tag t []) ts = [].
Proof. induction ts; trivial. Qed.

Lemma tags_around_no_end (w : Text) :
  end_tags w = [] -> tags_around w (length (content w)) = [].
Proof.
  intros He. unfold tags_around, all_chars.
  destruct (length (content w)) as [|p] eqn:El; trivial.
  destruct (nth_error _ p); trivial.
  rewrite <- El, nth_error_app2, Nat.sub_diag by lia. simpl.
  rewrite He. apply filter_has_tag_nil.
Qed.

Lemma insert_tags_no_end (w : Text) (tag : str) :
  end_tags w = [] -> insert_tags w tag = tag_list tag.
Proof.
  intros He. unfold insert_tags, tag_list.
  destruct (truthy tag); trivial. now apply tags_around_no_end.
Qed.

(** ** The bound on the buffer *)

Lemma text_get_state (i1 i2 : tkindex) (w : Text) :
  snd (text_get i1 i2 w) = w.
Proof.
  unfold text_get, bind, get_self, lift_outcome, ret.
  destruct (offset_of w i1); trivial.
  destruct (offset_of w i2); trivial.
Qed.

Lemma count_nl_add_tag (t : str) (cs : list tchar) :
  count_nl (map (add_tag t) cs) = count_nl cs.
Proof.
  induction cs as [|c cs IH]; trivial.
  simpl map. rewrite !count_nl_cons, IH.
  unfold add_tag, is_nl. now destruct (has_tag t (tags c)).
Qed.

Lemma text_delete_all (w : Text) :
  state w = NORMAL ->
  text_delete (LineCol 1 0) END w =
  (Ok tt, {| content := []; end_tags := []; state := NORMAL;
             sees_end := sees_end w |}).
Proof.
  intros Hs. unfold text_delete, bind, get_self, lift_outcome, modify, ret.
  rewrite Hs. cbn [offset_of].
  replace (Z.to_nat (1 - 1)) with 0 by lia.
  rewrite line_offset_0. cbn [at_line_start Nat.add Nat.min Z.to_nat].
  change (0 <? S (length (content w))) with true. cbn iota.
  destruct (Nat.ltb_spec (length (content w)) (S (length (content w))));
    [|lia].
  cbn [andb]. rewrite Hs. do 2 f_equal.
  destruct (content w) as [|c cs]; [reflexivity|].
  cbn [length Nat.ltb Nat.leb firstn app].
  change (S (length cs)) with (length (c :: cs)).
  now rewrite skipn_all.
Qed.

Lemma clear_log_run (v : DebugViewer) :
  clear_log v =
  (Ok tt, set_text {| content := []; end_tags := [];
                      state := DISABLED; sees_end := sees_end (text v) |} v).
Proof.
  unfold clear_log, bind.
  cbn [self_text text_configure_state modify].
  erewrite self_text_run' by (try apply text_delete_all; reflexivity).
  reflexivity.
Qed.

Lemma text_tag_add_all (t : str) (w : Text) :
  content (snd (text_tag_add t (LineCol 1 0) END w)) =
  map (add_tag t) (content w).
Proof.
  unfold text_tag_add, bind, get_self, lift_outcome, modify.
  cbn [offset_of].
  replace (Z.to_nat (1 - 1)) with 0 by lia.
  rewrite line_offset_0. cbn [Nat.add Nat.min Z.to_nat snd content].
  cbn [firstn skipn app]. rewrite Nat.sub_0_r.
  rewrite firstn_all2 by lia. now rewrite skipn_all, app_nil_r.
Qed.

Lemma select_all_content (v : DebugViewer) :
  content (text (snd (select_all v))) = map (add_tag SEL) (content (text v)).
Proof.
  unfold select_all, bind.
  cbn [self_text text_configure_state modify].
  set (w1 := {| content := content (text v); end_tags := end_tags (text v);
                state := NORMAL; sees_end := sees_end (text v) |}).
  pose proof (text_tag_add_all SEL w1) as E.
  unfold self_text. change (text (set_text w1 v)) with w1.
  destruct (text_tag_add SEL (LineCol 1 0) END w1) as [[[]|e] w'];
    simpl in E; cbn; now rewrite E.
Qed.

Lemma copy_selection_text (v : DebugViewer) :
  text (snd (copy_selection v)) = text v.
Proof.
  unfold copy_selection, try_except_TclError, bind, self_text.
  pose proof (text_get_state SEL_FIRST SEL_LAST (text v)) as E.
  destruct (text_get SEL_FIRST SEL_LAST (text v)) as [[sel|[]] w];
    simpl in E; subst w; reflexivity.
Qed.

Lemma append_line_text `{Unicode} (line stream : str) (v : DebugViewer) :
  text (snd (append_line line stream v)) = text v.
Proof.
  unfold append_line, bind, get_self.
  now destruct (truthy _ && negb _).
Qed.

(** No event leaves more than [cap] lines in the widget. *)
Lemma handle_bound `{Unicode} (e : event) (v : DebugViewer) :
  count_nl (content (text v)) <= cap ->
  count_nl (content (text (snd (handle e v)))) <= cap.
Proof.
  intros Hv. destruct e; cbn [handle]; trivial.
  - now rewrite append_line_text.
  - destruct (after_queue v) as [|[clean tag] q] eqn:E.
    + now rewrite mainloop_step_empty.
    + rewrite (mainloop_step_run _ E). cbn [snd].
      rewrite _insert_run. cbn [snd set_text text content].
      apply count_nl_evicted.
  - rewrite clear_log_run. cbn. unfold count_nl. simpl. lia.
  - now rewrite select_all_content, count_nl_add_tag.
  - now rewrite copy_selection_text.
Qed.

Lemma steps_bound `{Unicode} (es : list event) (v : DebugViewer) :
  count_nl (content (text v)) <= cap ->
  count_nl (content (text (steps es v))) <= cap.
Proof.
  revert v; induction es as [|e es IH]; intros v Hv; trivial.
  apply IH. now apply handle_bound.
Qed.

(** ** Appending many lines *)

Lemma forallb_map_fst {A B} (f : A -> B) (p : B -> bool) (l : list A) :
  forallb p (map f l) = forallb (fun a => p (f a)) l.
Proof. induction l as [|a l IH]; simpl; congruence. Qed.

Section Appending.
Context `{Unicode}.

Lemma append_line_cases (line stream : str) (self : DebugViewer) :
  append_line line stream self =
  (Ok tt,
   if truthy (lower (strip (filter_var self))) &&
      negb (contains (lower (strip (filter_var self)))
              (lower (strip_ansi line)))
   then self
   else set_after_queue
          (after_queue self ++ [closure_of (line, stream)]) self).
Proof.
  unfold append_line, bind, get_self.
  now destruct (truthy _ && negb _).
Qed.

Lemma steps_app (es1 es2 : list event) (v : DebugViewer) :
  steps (es1 ++ es2) v = steps es2 (steps es1 v).
Proof. apply fold_left_app. Qed.

(** The main loop works the queue off in order. *)
Lemma steps_mainloop (q : list (str * str)) (v : DebugViewer) :
  after_queue v = q ->
  ends_clean (content (text v)) = true ->
  end_tags (text v) = [] ->
  count_nl (content (text v)) <= cap ->
  forallb (fun c => one_line (fst c)) q = true ->
  buffer (steps (repeat EvMainloop (length q)) v) =
    lastn cap (buffer v ++ map queue_entry q) /\
  after_queue (steps (repeat EvMainloop (length q)) v) = [].
Proof.
  revert v; induction q as [|[clean tag] q IH];
    intros v Hq Hclean Hend Hcap Hnl.
  - simpl. rewrite app_nil_r. split; trivial.
    rewrite lastn_all; trivial. rewrite buffer_length. lia.
  - simpl in Hnl. apply andb_true_iff in Hnl as [Hn Hnl].
    cbn [length repeat steps fold_left handle].
    rewrite (mainloop_step_run _ Hq). cbn [snd].
    change (fold_left _ (repeat EvMainloop (length q)) ?x)
      with (steps (repeat EvMainloop (length q)) x).
    set (v1 := snd (_insert clean tag (set_after_queue q v))).
    assert (Hb1 : buffer v1 = lastn cap (buffer v ++ [(clean, tag_list tag)])).
    { unfold v1. rewrite buffer_insert by trivial.
      cbn [text set_after_queue]. now rewrite insert_tags_no_end. }
    assert (Hv1 : v1 = set_text
              {| content := evicted (inserted (text v) clean tag);
                 end_tags := end_tags (text v); state := DISABLED;
                 sees_end := view_after v clean |} (set_after_queue q v)).
    { unfold v1. now rewrite _insert_run. }
    destruct (IH v1) as [Hbuf Hqueue]; trivial.
    + now rewrite Hv1.
    + rewrite Hv1. cbn [text set_text content].
      apply ends_clean_evicted, ends_clean_inserted.
      now apply one_line_split in Hn.
    + now rewrite Hv1.
    + rewrite Hv1. cbn [text set_text content]. apply count_nl_evicted.
    + split; trivial. rewrite Hbuf, Hb1, lastn_app_lastn.
      now rewrite <- app_assoc.
Qed.

Lemma steps_mainloop_idle (n : nat) (v : DebugViewer) :
  after_queue v = [] -> steps (repeat EvMainloop n) v = v.
Proof.
  intros Hq. induction n as [|n IH]; trivial.
  cbn [repeat steps fold_left handle]. rewrite mainloop_step_empty by trivial.
  exact IH.
Qed.

(** More turns than callbacks do no harm. *)
Lemma steps_mainloop_enough (n : nat) (v : DebugViewer) :
  length (after_queue v) <= n ->
  ends_clean (content (text v)) = true ->
  end_tags (text v) = [] ->
  count_nl (content (text v)) <= cap ->
  forallb (fun c => one_line (fst c)) (after_queue v) = true ->
  buffer (steps (repeat EvMainloop n) v) =
    lastn cap (buffer v ++ map queue_entry (after_queue v)) /\
  after_queue (steps (repeat EvMainloop n) v) = [].
Proof.
  intros Hn Hclean Hend Hcap Hnl.
  destruct (@steps_mainloop (after_queue v) v eq_refl Hclean Hend Hcap Hnl)
    as [Hbuf Hq].
  replace n with (length (after_queue v) + (n - length (after_queue v)))
    by lia.
  rewrite repeat_app, steps_app, steps_mainloop_idle by trivial.
  now split.
Qed.

(** While tailers append and the main loop runs, the buffer shows
    the lines whose callbacks have run, and the others wait. *)
Lemma steps_tailing (es : list event) (v : DebugViewer)
    (done : list (str * str)) :
  tailing_only es = true ->
  forallb (fun p => one_line (strip_ansi (fst p))) (appended es) = true ->
  shows v done ->
  exists done',
    shows (steps es v) done' /\
    done' ++ after_queue (steps es v) =
    done ++ after_queue v ++ map closure_of (appended es).
Proof.
  revert v done; induction es as [|e es IH]; intros v done Hev Hnl Hv.
  - exists done. split; trivial. simpl. now rewrite app_nil_r.
  - simpl in Hev. apply andb_true_iff in Hev as [He Hev].
    destruct Hv as (Hbuf & Hclean & Hend & Hfil & Hcap & Hq).
    destruct e; try discriminate; cbn [steps fold_left handle];
      change (fold_left _ es ?x) with (steps es x).
    + cbn [appended] in Hnl. simpl in Hnl.
      apply andb_true_iff in Hnl as [Hl Hnl].
      rewrite append_line_cases, Hfil. cbn [snd].
      change (truthy (lower (strip []))) with false. cbn [andb].
      destruct (IH (set_after_queue
                      (after_queue v ++ [closure_of (line, stream)]) v)
                  done Hev Hnl) as (done' & Hshows & Hall).
      { repeat split; trivial. cbn [after_queue set_after_queue].
        rewrite forallb_app, Hq. simpl. now rewrite Hl. }
      exists done'. split; trivial. rewrite Hall.
      cbn [after_queue set_after_queue appended map].
      now rewrite <- !app_assoc.
    + cbn [appended] in Hnl |- *.
      destruct (after_queue v) as [|[clean tag] q] eqn:Eq.
      * rewrite mainloop_step_empty by trivial. cbn [snd].
        destruct (IH v done Hev Hnl) as (done' & Hshows & Hall).
        { repeat split; trivial. now rewrite Eq. }
        exists done'. split; trivial. now rewrite Hall, Eq.
      * rewrite (mainloop_step_run _ Eq). cbn [snd].
        simpl in Hq. apply andb_true_iff in Hq as [Hn Hq].
        set (v1 := snd (_insert clean tag (set_after_queue q v))).
        assert (Hv1 : v1 = set_text
                  {| content := evicted (inserted (text v) clean tag);
                     end_tags := end_tags (text v); state := DISABLED;
                     sees_end := view_after v clean |}
                  (set_after_queue q v))
          by (unfold v1; now rewrite _insert_run).
        destruct (IH v1 (done ++ [(clean, tag)]) Hev Hnl)
          as (done' & Hshows & Hall).
        { repeat split.
          - unfold v1. rewrite buffer_insert by trivial.
            cbn [text set_after_queue].
            change (buffer (set_after_queue q v)) with (buffer v).
            rewrite insert_tags_no_end, Hbuf, lastn_app_lastn by trivial.
            now rewrite map_app.
          - rewrite Hv1. cbn [text set_text content].
            apply ends_clean_evicted, ends_clean_inserted.
      now apply one_line_split in Hn.
          - now rewrite Hv1.
          - now rewrite Hv1.
          - rewrite Hv1. cbn [text set_text content].
            apply count_nl_evicted.
          - now rewrite Hv1. }
        exists done'. split; trivial. rewrite Hall, Hv1.
        cbn [after_queue set_text set_after_queue].
        now rewrite <- !app_assoc.
Qed.

(** From a new viewer: lines are appended while the main loop runs,
    and in the end the main loop runs what is left. *)
Lemma buffer_after_tailing (es : list event) (clip : str) :
  tailing_only es = true ->
  forallb (fun p => one_line (strip_ansi (fst p))) (appended es) = true ->
  buffer (steps (es ++ repeat EvMainloop (length (appended es)))
            (init clip)) = lastn cap (map entry_of (appended es)) /\
  after_queue (steps (es ++ repeat EvMainloop (length (appended es)))
                 (init clip)) = [].
Proof.
  intros Hev Hnl.
  destruct (@steps_tailing es (init clip) [] Hev Hnl)
    as (done & (Hbuf & Hclean & Hend & _ & Hcap & Hq) & Hall).
  { repeat split. unfold count_nl. simpl. lia. }
  cbn [app after_queue init] in Hall.
  rewrite steps_app.
  destruct (@steps_mainloop_enough (length (appended es)) (steps es (init clip)))
    as [Hb Hempty]; trivial.
  { apply (f_equal (@length _)) in Hall.
    rewrite length_app, length_map in Hall. lia. }
  split; trivial.
  rewrite Hb, Hbuf, lastn_app_lastn, <- map_app, Hall.
  unfold entry_of. now rewrite map_map.
Qed.
End Appending.

(** C2: whatever happens to a new viewer, its buffer never holds more
    than 5000 lines; and when 5001 lines were appended (no filter set,
    no line with a newline inside, nor with the character U+0000, at
    which the widget would cut it), in any interleaving with the turns
    of the main loop, and the main loop has run all their callbacks,
    the buffer holds 5000 entries: all the lines but the first, whole,
    in the order they came. *)
Theorem C2_buffer_capped `{Unicode} :
  (forall (es : list event) (clip : str),
     (Z.of_nat (length (buffer (steps es (init clip)))) <= 5000)%Z) /\
  (forall (es : list event) (clip : str),
     tailing_only es = true ->
     Z.of_nat (length (appended es)) = 5001%Z ->
     forallb (fun p => one_line (strip_ansi (fst p))) (appended es) = true ->
     let v := steps (es ++ repeat EvMainloop (length (appended es)))
                (init clip) in
     buffer v = map entry_of (tl (appended es)) /\
     Z.of_nat (length (buffer v)) = 5000%Z /\
     after_queue v = []).
Proof.
  split.
  - intros es clip. rewrite buffer_length.
    assert (count_nl (content (text (steps es (init clip)))) <= cap) as Hb.
    { apply steps_bound. unfold count_nl. simpl. lia. }
    unfold cap in Hb. lia.
  - intros es clip Hev Hlen Hnl v.
    destruct (buffer_after_tailing es clip Hev Hnl) as [Hbuf Hq].
    fold v in Hbuf, Hq.
    assert (Htl : lastn cap (map entry_of (appended es)) =
                  map entry_of (tl (appended es))).
    { unfold lastn. rewrite length_map.
      replace (length (appended es) - cap) with 1 by (unfold cap; lia).
      now destruct (appended es). }
    rewrite Hbuf, Htl. repeat split; trivial.
    rewrite length_map. destruct (appended es); simpl in *; lia.
Qed.

Lemma C2_buffer_capped_witness :
  tailing_only many_lines = true /\
  Z.of_nat (length (appended many_lines)) = 5001%Z /\
  forallb (fun p => one_line (strip_ansi (fst p))) (appended many_lines)
    = true /\
  Z.of_nat (length (buffer
     (steps (H := ascii_db)
        (many_lines ++ repeat EvMainloop (length (appended many_lines)))
        (init [])))) = 5000%Z.
Proof.
  assert (H0 : tailing_only many_lines = true) by (vm_compute; reflexivity).
  assert (H1 : Z.of_nat (length (appended many_lines)) = 5001%Z)
    by (vm_compute; reflexivity).
  assert (H2 : forallb (fun p => one_line (strip_ansi (fst p)))
                 (appended many_lines) = true) by (vm_compute; reflexivity).
  split; [exact H0|]. split; [exact H1|]. split; [exact H2|].
  exact (proj1 (proj2 (proj2 (C2_buffer_capped (H := ascii_db))
                         many_lines [] H0 H1 H2))).
Defined.

(** ** The filter *)

Lemma lastn_snoc {A} (n : nat) (l : list A) (x : A) :
  0 < n -> lastn n (l ++ [x]) = lastn (n - 1) l ++ [x].
Proof.
  intros Hn. unfold lastn. rewrite length_app, skipn_app. simpl length.
  replace (length l + 1 - n) with (length l - (n - 1)) by lia.
  replace (length l - (n - 1) - length l) with 0 by lia.
  reflexivity.
Qed.

Lemma all_ascii_rev (s : str) : all_ascii (rev s) = all_ascii s.
Proof.
  induction s as [|c s IH]; trivial.
  simpl. rewrite all_ascii_app, IH. simpl. rewrite andb_true_r.
  apply andb_comm.
Qed.

Lemma lstrip_ascii `{U : Unicode} (s : str) :
  all_ascii s = true ->
  lstrip (H := U) s = lstrip (H := ascii_db) s /\
  all_ascii (lstrip (H := ascii_db) s) = true.
Proof.
  induction s as [|c s IH]; intros Hs; [now split|].
  pose proof Hs as Hcs.
  simpl in Hs. apply andb_true_iff in Hs as [Hc Hs].
  cbn [lstrip]. rewrite (isspace_ascii (Unicode := U)) by now apply N.ltb_lt.
  change (isspace (Unicode := ascii_db) c) with (ascii_isspace c).
  destruct (ascii_isspace c); [now apply IH | now split].
Qed.

Lemma strip_ascii `{U : Unicode} (s : str) :
  all_ascii s = true ->
  strip (H := U) s = strip (H := ascii_db) s /\
  all_ascii (strip (H := ascii_db) s) = true.
Proof.
  intros Hs. unfold strip, rstrip.
  destruct (lstrip_ascii (U := U) s Hs) as [-> Hl].
  rewrite <- all_ascii_rev in Hl.
  destruct (lstrip_ascii (U := U) _ Hl) as [-> Hr].
  split; trivial. now rewrite all_ascii_rev.
Qed.

Section Filter.
Context `{Unicode}.

Lemma not_accepted_and_dropped (self : DebugViewer) (line stream : str) :
  accepted self line stream -> dropped self line stream -> False.
Proof.
  unfold accepted, dropped. intros -> [= E].
  apply (f_equal after_queue), (f_equal (@length _)) in E.
  cbn [after_queue set_after_queue] in E. rewrite length_app in E.
  simpl in E. lia.
Qed.

Lemma accepted_iff (self : DebugViewer) (line stream : str) :
  truthy (active_filter self) = true ->
  (accepted self line stream <->
   contains (active_filter self) (lower (strip_ansi line)) = true) /\
  (dropped self line stream <->
   contains (active_filter self) (lower (strip_ansi line)) = false).
Proof.
  intros Hf.
  assert (Hcases : append_line line stream self =
    (Ok tt, if negb (contains (active_filter self)
                       (lower (strip_ansi line)))
            then self
            else set_after_queue
                   (after_queue self ++ [closure_of (line, stream)]) self)).
  { rewrite append_line_cases. fold (active_filter self). now rewrite Hf. }
  destruct (contains (active_filter self) (lower (strip_ansi line)));
    cbn [negb] in Hcases.
  - assert (Ha : accepted self line stream) by exact Hcases.
    repeat split; trivial; try discriminate.
    intros Hd. destruct (not_accepted_and_dropped Ha Hd).
  - assert (Hd : dropped self line stream) by exact Hcases.
    repeat split; trivial; try discriminate.
    intros Ha. destruct (not_accepted_and_dropped Ha Hd).
Qed.

(** The callback at the end of the queue gives the newest entry of
    the buffer once the main loop has run the queue. *)
Lemma last_callback_enters (q : list (str * str)) (clean tag : str)
    (v : DebugViewer) :
  after_queue v = q ++ [(clean, tag)] ->
  ends_clean (content (text v)) = true ->
  forallb (fun c => one_line (fst c)) q = true ->
  one_line clean = true ->
  exists older ts,
    buffer (steps (repeat EvMainloop (S (length q))) v) =
    older ++ [(clean, ts)].
Proof.
  revert v; induction q as [|[c t] q IH]; intros v Hq Hclean Hall Hn.
  - cbn [length repeat steps fold_left handle].
    rewrite (mainloop_step_run _ Hq). cbn [snd].
    rewrite buffer_insert by trivial.
    rewrite lastn_snoc by (unfold cap; lia).
    eexists _, _. reflexivity.
  - simpl in Hall. apply andb_true_iff in Hall as [Hc Hall].
    cbn [length repeat steps fold_left handle].
    change (fold_left _ (repeat EvMainloop ?n) ?x)
      with (steps (repeat EvMainloop n) x).
    rewrite (mainloop_step_run _ Hq). cbn [snd].
    apply IH; trivial.
    + now rewrite _insert_run.
    + rewrite _insert_run. cbn [snd text set_text content].
      apply ends_clean_evicted, ends_clean_inserted.
      now apply one_line_split in Hc.
Qed.

(** An accepted line is the newest entry of the buffer once the main
    loop has run the callbacks that waited, and its own. *)
Lemma accepted_enters (self : DebugViewer) (line stream : str) :
  accepted self line stream ->
  ends_clean (content (text self)) = true ->
  forallb (fun c => one_line (fst c)) (after_queue self) = true ->
  one_line (strip_ansi line) = true ->
  exists older ts,
    buffer (steps (EvAppend line stream ::
                   repeat EvMainloop (S (length (after_queue self)))) self) =
    older ++ [(strip_ansi line, ts)].
Proof.
  intros Ha Hclean Hq Hn. cbn [steps fold_left handle].
  change (fold_left _ (repeat EvMainloop ?n) ?x)
    with (steps (repeat EvMainloop n) x).
  rewrite Ha. cbn [snd].
  now apply (@last_callback_enters (after_queue self) (strip_ansi line)
               (classify_line (init []) (strip_ansi line) stream)).
Qed.

(** A dropped line leaves no trace: whatever happens later happens as
    if the line had never been read. *)
Lemma dropped_for_good (self : DebugViewer) (line stream : str)
    (es : list event) :
  dropped self line stream ->
  steps (EvAppend line stream :: es) self = steps es self.
Proof. intros Hd. cbn [steps fold_left handle]. now rewrite Hd. Qed.

Lemma active_filter_ascii (self : DebugViewer) :
  all_ascii (filter_var self) = true ->
  active_filter self =
  map ascii_lower (strip (H := ascii_db) (filter_var self)).
Proof.
  intros Hf. unfold active_filter.
  destruct (strip_ascii (filter_var self) Hf) as [-> Hs].
  now apply lower_ascii.
Qed.

Lemma append_line_ascii (self : DebugViewer) (line stream : str) :
  all_ascii (filter_var self) = true ->
  all_ascii (strip_ansi line) = true ->
  append_line line stream self =
  (Ok tt,
   let f := map ascii_lower (strip (H := ascii_db) (filter_var self)) in
   if truthy f && negb (contains f (map ascii_lower (strip_ansi line)))
   then self
   else set_after_queue
          (after_queue self ++ [closure_of (line, stream)]) self).
Proof.
  intros Hf Hl. rewrite append_line_cases.
  fold (active_filter self).
  now rewrite (active_filter_ascii _ Hf), (lower_ascii _ Hl).
Qed.
End Filter.

(** C5: with a filter set (the filter entry holds more than white
    space), a line is passed on exactly when the filter, trimmed and in
    lower case, occurs in the lower-cased stripped line, and is dropped
    exactly when it does not.  A line that was passed on is the newest
    entry of the buffer after the main loop ran the callbacks that
    waited and its own (on a widget without an open line, for texts
    without a newline and without the character U+0000, at which the
    widget would cut the line); a dropped line changes nothing, now or
    later.  With the filter "foo" the line "foobar appeared" is passed
    on and "bar appeared" is dropped, and the case of the letters does
    not matter. *)
Theorem C5_filter_decides `{Unicode} :
  (forall self line stream,
     truthy (active_filter self) = true ->
     (accepted self line stream <->
      contains (active_filter self) (lower (strip_ansi line)) = true) /\
     (dropped self line stream <->
      contains (active_filter self) (lower (strip_ansi line)) = false) /\
     (accepted self line stream ->
      ends_clean (content (text self)) = true ->
      forallb (fun c => one_line (fst c)) (after_queue self) = true ->
      one_line (strip_ansi line) = true ->
      exists older ts,
        buffer (steps (EvAppend line stream ::
                       repeat EvMainloop (S (length (after_queue self))))
                  self) =
        older ++ [(strip_ansi line, ts)]) /\
     (dropped self line stream ->
      forall es, buffer (steps (EvAppend line stream :: es) self) =
                 buffer (steps es self))) /\
  (forall self stream,
     filter_var self = py "foo" ->
     accepted self (py "foobar appeared") stream /\
     dropped self (py "bar appeared") stream /\
     accepted self (py "FooBar appeared") stream) /\
  (forall self stream,
     filter_var self = py " FOO " ->
     accepted self (py "foobar appeared") stream /\
     dropped self (py "bar appeared") stream).
Proof.
  split; [|split].
  - intros self line stream Hf.
    destruct (accepted_iff self line stream Hf) as [Ha Hd].
    repeat split; try apply Ha; try apply Hd.
    + now apply accepted_enters.
    + intros Hdrop es. now rewrite dropped_for_good.
  - intros self stream Hf. unfold accepted, dropped.
    rewrite !append_line_ascii by (rewrite ?Hf; reflexivity).
    rewrite Hf. repeat split.
  - intros self stream Hf. unfold accepted, dropped.
    rewrite !append_line_ascii by (rewrite ?Hf; reflexivity).
    rewrite Hf. repeat split.
Qed.

Lemma C5_filter_decides_witness :
  let line := py "TypeError: x" in
  let self := steps (H := ascii_db)
                [EvAppend (py "error: first") (py "stdout")]
                filtering_viewer in
  truthy (active_filter (H := ascii_db) self) = true /\
  contains (active_filter (H := ascii_db) self)
    (lower (H := ascii_db) (strip_ansi line)) = true /\
  ends_clean (content (text self)) = true /\
  forallb (fun c => one_line (fst c)) (after_queue self) = true /\
  one_line (strip_ansi line) = true /\
  exists older ts,
    buffer (steps (H := ascii_db)
              (EvAppend line (py "stdout") ::
               repeat EvMainloop (S (length (after_queue self)))) self)
    = older ++ [(strip_ansi line, ts)].
Proof.
  intros line self.
  assert (Hf : truthy (active_filter (H := ascii_db) self) = true)
    by reflexivity.
  destruct (proj1 (C5_filter_decides (H := ascii_db))
              self line (py "stdout") Hf)
    as (Ha & _ & Henter & _).
  repeat (split; [reflexivity|]).
  apply Henter; [apply Ha|..]; reflexivity.
Defined.

(** ** The tailer *)

Section Tailer.
Context `{Unicode}.

Lemma lstrip_split (s : str) :
  exists ws, s = ws ++ lstrip s /\ forallb isspace ws = true.
Proof.
  induction s as [|c s (ws & Hs & Hws)]; [now exists []|].
  cbn [lstrip]. destruct (isspace c) eqn:Hc.
  - exists (c :: ws). simpl. rewrite Hc, Hws. split; trivial.
    now f_equal.
  - now exists [].
Qed.

Lemma forallb_rev {A} (p : A -> bool) (l : list A) :
  forallb p (rev l) = forallb p l.
Proof.
  induction l as [|a l IH]; trivial.
  simpl. rewrite forallb_app, IH. simpl. rewrite andb_true_r.
  apply andb_comm.
Qed.

(** [rstrip] takes white space off the end, and nothing else. *)
Lemma rstrip_split (s : str) :
  exists ws, s = rstrip s ++ ws /\ forallb isspace ws = true.
Proof.
  unfold rstrip. destruct (lstrip_split (rev s)) as (ws & Hs & Hws).
  exists (rev ws). rewrite forallb_rev. split; trivial.
  rewrite <- rev_app_distr, <- Hs. now rewrite rev_involutive.
Qed.

Lemma rstrip_newline (l : str) : rstrip (l ++ [NEWLINE]) = rstrip l.
Proof.
  unfold rstrip. rewrite rev_app_distr. cbn [rev app lstrip].
  now rewrite isspace_ascii by reflexivity.
Qed.

Lemma file_line_split (l : str) :
  file_line l = true -> no_newline l = true /\ no_return l = true.
Proof. apply andb_true_iff. Qed.

Lemma take_line_newline (l rest : str) :
  file_line l = true ->
  take_line (l ++ NEWLINE :: rest) = l ++ [NEWLINE] /\
  line_width (l ++ NEWLINE :: rest) = length (l ++ [NEWLINE]).
Proof.
  intros [Hn Hr]%file_line_split.
  induction l as [|c l IH]; [now split|].
  simpl in Hn, Hr.
  apply andb_true_iff in Hn as [Hc Hn]. apply andb_true_iff in Hr as [Hd Hr].
  apply negb_true_iff in Hc, Hd. destruct (IH Hn Hr) as [IH1 IH2].
  cbn [app take_line line_width]. rewrite Hc, Hd. cbn [orb].
  rewrite IH1, IH2. now split.
Qed.

(** A line as [readline] returns it holds no CR, and no LF but at its
    end. *)
Lemma take_line_shape (s : str) :
  exists body, file_line body = true /\
    (take_line s = body \/ take_line s = body ++ [NEWLINE]).
Proof.
  induction s as [|c s (body & Hb & Hs)]; [now exists []; auto|].
  cbn [take_line].
  destruct (N.eqb c NEWLINE) eqn:Hc; [exists []; auto|].
  destruct (N.eqb c RETURN) eqn:Hd; [exists []; auto|].
  cbn [orb]. exists (c :: body). split.
  - apply file_line_split in Hb as [Hn Hr]. unfold file_line.
    simpl. now rewrite Hc, Hd, Hn, Hr.
  - destruct Hs as [-> | ->]; auto.
Qed.

Lemma readline_eof (data : str) (pos : nat) :
  readline data pos = [] <-> length data <= pos.
Proof.
  unfold readline. split.
  - intros E. destruct (skipn pos data) as [|c r] eqn:Es.
    + apply (f_equal (@length N)) in Es. rewrite length_skipn in Es.
      simpl in Es. lia.
    + simpl in E. destruct (N.eqb c NEWLINE || N.eqb c RETURN); discriminate.
  - intros Hle. now rewrite skipn_all2.
Qed.

Lemma skipn_old (old rest : str) : skipn (length old) (old ++ rest) = rest.
Proof. now rewrite skipn_app, skipn_all, Nat.sub_diag. Qed.

Lemma tail_poll_line (old l rest : str) :
  file_line l = true ->
  tail_poll (old ++ (l ++ [NEWLINE]) ++ rest) (length old) =
  (Some (rstrip l), length (old ++ l ++ [NEWLINE])).
Proof.
  intros Hl. unfold tail_poll, readline. rewrite skipn_old.
  rewrite <- app_assoc. cbn [app].
  destruct (@take_line_newline l rest Hl) as [-> ->].
  replace (truthy (l ++ [NEWLINE])) with true by now destruct l.
  now rewrite rstrip_newline, <- length_app.
Qed.

Lemma tail_poll_cases (data : str) (pos : nat) :
  (length data <= pos /\ tail_poll data pos = (None, pos)) \/
  (pos < length data /\ readline data pos <> [] /\
   tail_poll data pos =
   (Some (rstrip (readline data pos)),
    pos + line_width (skipn pos data))).
Proof.
  unfold tail_poll. destruct (readline data pos) as [|c r] eqn:E.
  - left. split; trivial. now apply readline_eof.
  - right. repeat split; try discriminate.
    destruct (Nat.le_gt_cases (length data) pos) as [Hle|Hlt]; trivial.
    apply readline_eof in Hle. congruence.
Qed.

(** Every line that is in the file after the read position comes out,
    in order, without its newline and the white space before it. *)
Lemma tail_polls_lines (ls : list str) (old : str) (fuel : nat) :
  forallb file_line ls = true -> length ls <= fuel ->
  tail_polls fuel (old ++ file_lines ls) (length old) = map rstrip ls.
Proof.
  revert old fuel; induction ls as [|l ls IH]; intros old fuel Hnl Hfuel.
  - destruct fuel as [|fuel]; trivial. cbn [tail_polls].
    destruct (tail_poll_cases (old ++ file_lines []) (length old))
      as [[_ ->] | [Hlt _]]; trivial.
    unfold file_lines in Hlt. simpl in Hlt. rewrite app_nil_r in Hlt. lia.
  - simpl in Hnl. apply andb_true_iff in Hnl as [Hl Hnl].
    destruct fuel as [|fuel]; [simpl in Hfuel; lia|].
    cbn [tail_polls].
    change (file_lines (l :: ls)) with ((l ++ [NEWLINE]) ++ file_lines ls).
    rewrite tail_poll_line by trivial. cbn [map]. f_equal.
    rewrite app_assoc. apply IH; trivial.
    simpl in Hfuel. lia.
Qed.
End Tailer.

(** C7, counterexample: an empty line of the file is read as a lone
    newline; nothing is left of it after trimming, and yet it is passed
    on to [append_line], which queues an empty line for the buffer. *)
Lemma C7_blank_line_is_forwarded :
  let data := py "up" ++ [NEWLINE; NEWLINE] in
  readline data 3 = [NEWLINE] /\
  rstrip (H := ascii_db) (readline data 3) = [] /\
  tail_poll (H := ascii_db) data 3 = (Some [], 4) /\
  after_queue (snd (tail_file_step (H := ascii_db) (Holds data) (py "stdout")
                      (Tailing 3) (init []))) = [([], [])].
Proof. vm_compute. repeat split. Qed.

(** C7, as amended: a turn of the tailer passes on whatever [readline]
    returns, unless it returns nothing, which it does only at the end of
    the file.  What [readline] returns is a line of the file as the
    text mode of [open] sees it: it ends at the first LF, CR or CR LF,
    so it holds no CR, and no LF but at its end.  The text is passed on
    without the white space at its end (the white space at its start
    stays), together with the stream of the tailer.  So every line
    appended to the file after the tailer started (LF at its end,
    neither LF nor CR inside) is passed on, in order, also the lines
    that are empty or all white space, which arrive as the empty
    text. *)
Theorem C7_tailer_forwards_every_line `{Unicode} :
  (forall data pos,
     fst (tail_poll data pos) = None <-> length data <= pos) /\
  (forall data pos,
     pos < length data ->
     readline data pos <> [] /\
     tail_poll data pos =
     (Some (rstrip (readline data pos)),
      pos + line_width (skipn pos data))) /\
  (forall data pos,
     exists body, file_line body = true /\
       (readline data pos = body \/ readline data pos = body ++ [NEWLINE])) /\
  (forall s, exists ws, s = rstrip s ++ ws /\ forallb isspace ws = true) /\
  (forall self data stream pos line pos',
     running self = true ->
     tail_poll data pos = (Some line, pos') ->
     tail_file_step (Holds data) stream (Tailing pos) self =
     (Ok (Tailing pos'), snd (append_line line stream self))) /\
  (forall ls old fuel,
     forallb file_line ls = true -> length ls <= fuel ->
     tail_polls fuel (old ++ file_lines ls) (length old) = map rstrip ls).
Proof.
  split; [|split; [|split; [|split; [|split]]]].
  - intros data pos. split.
    + destruct (tail_poll_cases data pos) as [[Hle _] | [_ [_ ->]]];
        trivial. discriminate.
    + intros Hle.
      destruct (tail_poll_cases data pos) as [[_ ->] | [Hlt _]];
        trivial. lia.
  - intros data pos Hlt.
    destruct (tail_poll_cases data pos) as [[Hle _] | [_ [Hne E]]];
      [lia | now split].
  - intros data pos. apply take_line_shape.
  - apply rstrip_split.
  - intros self data stream pos line pos' Hrun Hpoll.
    unfold tail_file_step, bind, get_self. rewrite Hrun, Hpoll.
    rewrite append_line_cases. reflexivity.
  - apply tail_polls_lines.
Qed.

Lemma C7_tailer_forwards_witness :
  let ls := [py "GET /health 200  "; []; py "  indented"] in
  forallb file_line ls = true /\ length ls <= 3 /\
  tail_polls (H := ascii_db) 3 (py "old line" ++ [NEWLINE] ++ file_lines ls) 9
  = [py "GET /health 200"; []; py "  indented"].
Proof.
  intros ls. split; [reflexivity|]. split; [simpl; lia|].
  exact (proj2 (proj2 (proj2 (proj2 (proj2
           (C7_tailer_forwards_every_line (H := ascii_db))))))
           ls (py "old line" ++ [NEWLINE]) 3 eq_refl (le_n 3)).
Defined.

(** ** Copying *)

Lemma first_sel_none (cs : list tchar) :
  filter (fun c => has_tag SEL (tags c)) cs = [] -> first_sel cs = None.
Proof.
  induction cs as [|c cs IH]; trivial.
  simpl. destruct (has_tag SEL (tags c)); [discriminate|].
  intros E. now rewrite IH.
Qed.

(** Without a selection [text.get(SEL_FIRST, SEL_LAST)] raises. *)
Lemma text_get_no_selection (w : Text) :
  first_sel (all_chars w) = None ->
  text_get SEL_FIRST SEL_LAST w = (Raise TclError, w).
Proof.
  intros Hsel. unfold text_get, bind, get_self, lift_outcome.
  cbn [offset_of]. now rewrite Hsel.
Qed.

(** C9: with nothing selected, [copy_selection] returns normally and
    leaves the viewer as it was: the clipboard, the widget with its
    buffer and its (empty) selection, and everything else. *)
Theorem C9_copy_without_selection (self : DebugViewer) :
  selection (text self) = [] ->
  copy_selection self = (Ok tt, self).
Proof.
  intros Hsel. apply first_sel_none, text_get_no_selection in Hsel.
  unfold copy_selection, try_except_TclError, bind, self_text.
  rewrite Hsel. now destruct self.
Qed.

Lemma C9_copy_without_selection_witness :
  selection (text showing_viewer) = [] /\
  copy_selection showing_viewer = (Ok tt, showing_viewer).
Proof.
  split; [reflexivity|].
  apply (C9_copy_without_selection showing_viewer). reflexivity.
Defined.

(** * Further properties of the code *)

(** ** More on [strip_ansi] *)

Lemma skip_params_app_esc (s y : str) :
  skip_params (s ++ ESC :: y) = skip_params s ++ ESC :: y.
Proof.
  induction s as [|c s IH]; [reflexivity|].
  simpl. now destruct (is_param c).
Qed.

(** A match can not run into an ESC: what follows a text, from an ESC
    on, does not change whether a sequence starts the text. *)
Lemma match_ansi_app_esc (c : N) (rest y : str) :
  match_ansi ((c :: rest) ++ ESC :: y) =
  option_map (fun r => r ++ ESC :: y) (match_ansi (c :: rest)).
Proof.
  destruct rest as [|c1 s']; simpl.
  - now rewrite andb_false_r.
  - destruct (N.eqb c ESC && N.eqb c1 LBRACKET); trivial.
    rewrite skip_params_app_esc.
    destruct (skip_params s') as [|d r]; simpl; trivial.
    now destruct (N.eqb d LETTER_m).
Qed.

Lemma strip_ansi_app_esc (a y : str) :
  strip_ansi (a ++ ESC :: y) = strip_ansi a ++ strip_ansi (ESC :: y).
Proof.
  induction a as [|c rest r E IH|c rest E IH] using strip_ansi_ind.
  - now rewrite strip_ansi_nil.
  - assert (E' := match_ansi_app_esc c rest y). rewrite E in E'.
    simpl in E'. apply strip_ansi_match in E, E'.
    simpl. now rewrite E, E', IH.
  - assert (E' := match_ansi_app_esc c rest y). rewrite E in E'.
    simpl in E'. apply strip_ansi_keep in E, E'.
    simpl. now rewrite E, E', IH.
Qed.

Lemma match_ansi_whole (m b : str) :
  match_ansi m = Some [] ->
  match_ansi (m ++ b) = Some b /\ exists y, m = ESC :: y.
Proof.
  intros (m' & Hm & E)%match_ansi_spec. rewrite app_nil_r in E. subst m'.
  split.
  - apply match_ansi_spec. now exists m.
  - destruct Hm as (ps & _ & ->). now eexists.
Qed.

(** X1: an escape sequence anywhere in a text is removed without a
    trace: the text before it and the text after it are stripped as
    if they were alone. *)
Theorem X1_strip_ansi_splice (a m b : str) :
  match_ansi m = Some [] ->
  strip_ansi (a ++ m ++ b) = strip_ansi a ++ strip_ansi b.
Proof.
  intros Hm. destruct (match_ansi_whole m b Hm) as [Hmb [y ->]].
  change ((ESC :: y) ++ b) with (ESC :: y ++ b) in *.
  rewrite strip_ansi_app_esc. f_equal.
  now apply strip_ansi_match.
Qed.

Lemma X1_strip_ansi_splice_witness :
  match_ansi (ESC :: py "[1;31m") = Some [] /\
  strip_ansi (py "a " ++ (ESC :: py "[1;31m") ++ py "b") = py "a b".
Proof.
  split; [reflexivity|].
  rewrite (X1_strip_ansi_splice (py "a ") (ESC :: py "[1;31m") (py "b"));
    reflexivity.
Defined.

Lemma strip_ansi_length (s : str) : length (strip_ansi s) <= length s.
Proof.
  induction s as [|c rest r E IH|c rest E IH] using strip_ansi_ind.
  - now rewrite strip_ansi_nil.
  - rewrite (@strip_ansi_match _ _ _ E).
    apply match_ansi_shorter in E. lia.
  - rewrite (@strip_ansi_keep _ _ E). simpl. lia.
Qed.

Lemma opens_sequence_false (s : str) :
  opens_sequence s = false <-> match_ansi s = None.
Proof.
  unfold opens_sequence. destruct (match_ansi s); split; congruence.
Qed.

(** X2: [strip_ansi] never makes a text longer; it returns the text as
    it is exactly when no escape sequence starts anywhere in it, and a
    strictly shorter text otherwise. *)
Theorem X2_strip_ansi_fixed_point (s : str) :
  length (strip_ansi s) <= length s /\
  (strip_ansi s = s <-> has_sequence s = false) /\
  (has_sequence s = true -> length (strip_ansi s) < length s).
Proof.
  assert (Hshort : has_sequence s = true -> length (strip_ansi s) < length s).
  { induction s as [|c rest r E IH|c rest E IH] using strip_ansi_ind.
    - discriminate.
    - intros _. rewrite (@strip_ansi_match _ _ _ E).
      pose proof (strip_ansi_length r). apply match_ansi_shorter in E. lia.
    - cbn [has_sequence].
      rewrite (proj2 (opens_sequence_false _) E). cbn [orb].
      intros Hrest%IH. rewrite (@strip_ansi_keep _ _ E). simpl. lia. }
  split; [apply strip_ansi_length|]. split; [|exact Hshort].
  split.
  - intros Heq. destruct (has_sequence s) eqn:Hs; trivial.
    specialize (Hshort eq_refl). rewrite Heq in Hshort. lia.
  - clear Hshort. induction s as [|c rest IH]; intros Hs.
    + apply strip_ansi_nil.
    + cbn [has_sequence] in Hs. apply orb_false_iff in Hs as [Ho Hs].
      apply opens_sequence_false in Ho.
      rewrite (@strip_ansi_keep _ _ Ho). f_equal. now apply IH.
Qed.

Lemma X2_strip_ansi_fixed_point_witness :
  has_sequence (py "plain [0m text") = false /\
  strip_ansi (py "plain [0m text") = py "plain [0m text" /\
  has_sequence coloured_line = true /\
  length (strip_ansi coloured_line) < length coloured_line.
Proof.
  split; [reflexivity|]. split.
  - apply (proj1 (proj2 (X2_strip_ansi_fixed_point (py "plain [0m text")))).
    reflexivity.
  - split; [reflexivity|].
    apply (proj2 (proj2 (X2_strip_ansi_fixed_point coloured_line))).
    reflexivity.
Defined.

Lemma strip_ansi_In (s : str) (c : N) : In c (strip_ansi s) -> In c s.
Proof.
  induction s as [|d rest r E IH|d rest E IH] using strip_ansi_ind.
  - now rewrite strip_ansi_nil.
  - rewrite (@strip_ansi_match _ _ _ E). intros Hin%IH.
    apply match_ansi_spec in E as (m & _ & ->).
    apply in_or_app. now right.
  - rewrite (@strip_ansi_keep _ _ E). simpl. tauto.
Qed.

Lemma no_newline_spec (s : str) :
  no_newline s = true <-> ~ In NEWLINE s.
Proof.
  unfold no_newline. rewrite forallb_forall. split.
  - intros Hall Hin. specialize (Hall _ Hin). now rewrite N.eqb_refl in Hall.
  - intros Hno c Hc. apply negb_true_iff, N.eqb_neq. now intros ->.
Qed.

Lemma no_newline_strip_ansi (s : str) :
  no_newline s = true -> no_newline (strip_ansi s) = true.
Proof.
  rewrite !no_newline_spec. intros Hno Hin. now apply Hno, strip_ansi_In.
Qed.

Lemma no_newline_rstrip `{Unicode} (s : str) :
  no_newline s = true -> no_newline (rstrip s) = true.
Proof.
  destruct (rstrip_split s) as (ws & Hs & _). intros Hn.
  rewrite Hs in Hn. unfold no_newline in Hn. rewrite forallb_app in Hn.
  now apply andb_true_iff in Hn as [Hn _].
Qed.

(** X3: whatever the tailer passes on holds no newline, before and
    after the stripping of [append_line]; so every call of
    [append_line] stands for one line of the widget. *)
Theorem X3_forwarded_text_is_one_line `{Unicode} (data : str) (pos : nat)
    (line : str) (pos' : nat) :
  tail_poll data pos = (Some line, pos') ->
  no_newline line = true /\ no_newline (strip_ansi line) = true.
Proof.
  unfold tail_poll, readline.
  destruct (take_line_shape (skipn pos data)) as (body & Hb & Hs).
  apply file_line_split in Hb as [Hb _].
  destruct (truthy _); [|discriminate]. intros [= <- _].
  assert (Hl : no_newline (rstrip (take_line (skipn pos data))) = true).
  { destruct Hs as [-> | ->]; rewrite ?rstrip_newline;
      now apply no_newline_rstrip. }
  split; trivial. now apply no_newline_strip_ansi.
Qed.

Lemma X3_forwarded_text_witness :
  tail_poll (H := ascii_db) (py "one " ++ [NEWLINE] ++ py "two") 0
    = (Some (py "one"), 5) /\
  no_newline (strip_ansi (py "one")) = true.
Proof.
  assert (E : tail_poll (H := ascii_db) (py "one " ++ [NEWLINE] ++ py "two") 0
              = (Some (py "one"), 5)) by reflexivity.
  split; [exact E|].
  exact (proj2 (X3_forwarded_text_is_one_line (H := ascii_db) _ _ E)).
Defined.

(** ** More on [classify_line] *)

(** X4: the tag of a line is empty or one of the tags that [__init__]
    configures; the configured tags "stderr" and "timestamp" are never
    given to a line. *)
Theorem X4_tag_is_configured `{Unicode} (self : DebugViewer)
    (line stream : str) :
  (classify_line self line stream = [] \/
   In (classify_line self line stream) configured_tags) /\
  classify_line self line stream <> py "stderr" /\
  classify_line self line stream <> py "timestamp".
Proof.
  rewrite classify_line_rules.
  destruct (str_eqb stream (py "stderr"));
    [|destruct (rule_error (lower line));
      [|destruct (rule_warn (lower line));
        [|destruct (rule_tool (lower line));
          [|destruct (rule_route (lower line));
            [|destruct (rule_success (lower line));
              [|destruct (rule_info (lower line));
                [|destruct (match_date line)]]]]]]];
    (split; [|split; discriminate]);
    try (left; reflexivity); right; unfold configured_tags; simpl; tauto.
Qed.

Lemma contains_trans (k1 k2 l : str) :
  contains k1 k2 = true -> contains k2 l = true -> contains k1 l = true.
Proof.
  intros (a & b & ->)%contains_spec (c & d & ->)%contains_spec.
  apply contains_spec. exists (c ++ a), (b ++ d).
  now rewrite <- !app_assoc.
Qed.

(** X5: the keyword "warning" of the warning rule decides nothing:
    a text that holds it holds "warn", which comes first in the list.
    The rule is the same as the one with "warn" and "deprecated"
    alone. *)
Theorem X5_warning_keyword_is_redundant (l : str) :
  rule_warn l = any_in [py "warn"; py "deprecated"] l.
Proof.
  unfold rule_warn, any_in. cbn [existsb].
  destruct (contains (py "warn") l) eqn:Hw; trivial. cbn [orb].
  destruct (contains (py "warning") l) eqn:Hwg; trivial.
  assert (contains (py "warn") l = true) as E
    by (apply (contains_trans (py "warn") (py "warning")); trivial).
  congruence.
Qed.

Lemma ascii_lower_digit (c : N) :
  ascii_isdigit (ascii_lower c) = ascii_isdigit c.
Proof.
  unfold ascii_lower, ascii_isdigit.
  destruct (N.leb_spec 65 c), (N.leb_spec c 90); cbn [andb]; trivial.
  destruct (N.leb_spec 48 (c + 32)), (N.leb_spec (c + 32) 57),
    (N.leb_spec 48 c), (N.leb_spec c 57); cbn [andb]; trivial; lia.
Qed.

Lemma ascii_lower_hyphen (c : N) :
  N.eqb HYPHEN (ascii_lower c) = N.eqb HYPHEN c.
Proof.
  unfold ascii_lower, HYPHEN.
  destruct (N.leb_spec 65 c), (N.leb_spec c 90); cbn [andb]; trivial.
  destruct (N.eqb_spec 45 (c + 32)), (N.eqb_spec 45 c); trivial; lia.
Qed.

Lemma match_digits_lower (n : nat) (s : str) :
  match_digits (H := ascii_db) n (map ascii_lower s) =
  option_map (map ascii_lower) (match_digits (H := ascii_db) n s).
Proof.
  revert s; induction n as [|n IH]; intros s; [reflexivity|].
  destruct s as [|c s]; [reflexivity|]. cbn [map match_digits].
  change (isdecimal (Unicode := ascii_db) ?x) with (ascii_isdigit x).
  rewrite ascii_lower_digit. now destruct (ascii_isdigit c).
Qed.

Lemma match_char_lower (s : str) :
  match_char HYPHEN (map ascii_lower s) =
  option_map (map ascii_lower) (match_char HYPHEN s).
Proof.
  destruct s as [|c s]; [reflexivity|]. cbn [map match_char].
  rewrite ascii_lower_hyphen. now destruct (N.eqb HYPHEN c).
Qed.

Lemma match_date_lower (line : str) :
  match_date (H := ascii_db) (map ascii_lower line) =
  match_date (H := ascii_db) line.
Proof.
  unfold match_date. rewrite match_digits_lower.
  destruct (match_digits (H := ascii_db) 4 line) as [s1|]; trivial.
  cbn [option_map and_then]. rewrite match_char_lower.
  destruct (match_char HYPHEN s1) as [s2|]; trivial.
  cbn [option_map and_then]. rewrite match_digits_lower.
  destruct (match_digits (H := ascii_db) 2 s2) as [s3|]; trivial.
  cbn [option_map and_then]. rewrite match_char_lower.
  destruct (match_char HYPHEN s3) as [s4|]; trivial.
  cbn [option_map and_then]. rewrite match_digits_lower.
  now destruct (match_digits (H := ascii_db) 2 s4).
Qed.

(** X6: on ASCII lines the case of the letters does not matter: two
    lines that differ only in the case of their letters get the same
    tag, the date rule included. *)
Theorem X6_letter_case_does_not_matter `{Unicode} (self : DebugViewer)
    (line1 line2 stream : str) :
  all_ascii line1 = true -> all_ascii line2 = true ->
  map ascii_lower line1 = map ascii_lower line2 ->
  classify_line self line1 stream = classify_line self line2 stream.
Proof.
  intros H1 H2 Hsame.
  rewrite (classify_line_ascii self line1 stream H1).
  rewrite (classify_line_ascii self line2 stream H2).
  rewrite !classify_line_rules.
  rewrite (lower_ascii (H := ascii_db) _ H1).
  rewrite (lower_ascii (H := ascii_db) _ H2).
  rewrite <- (match_date_lower line1), <- (match_date_lower line2).
  now rewrite Hsame.
Qed.

Lemma X6_letter_case_witness :
  all_ascii (py "Compiled /Page in 3s") = true /\
  all_ascii (py "COMPILED /page IN 3S") = true /\
  classify_line (H := ascii_db) (init []) (py "Compiled /Page in 3s")
    (py "stdout") =
  classify_line (H := ascii_db) (init []) (py "COMPILED /page IN 3S")
    (py "stdout").
Proof.
  split; [reflexivity|]. split; [reflexivity|].
  apply (X6_letter_case_does_not_matter (H := ascii_db)); reflexivity.
Defined.

(** ** Clearing, selecting and copying *)

Lemma str_eqb_refl (t : str) : str_eqb t t = true.
Proof. now apply str_eqb_eq. Qed.

Lemma has_tag_add_tag (t : str) (c : tchar) :
  has_tag t (tags (add_tag t c)) = true.
Proof.
  unfold add_tag. destruct (has_tag t (tags c)) eqn:E; trivial.
  simpl. now rewrite str_eqb_refl.
Qed.

Lemma text_tag_add_all_run (t : str) (w : Text) :
  text_tag_add t (LineCol 1 0) END w =
  (Ok tt,
   {| content := map (add_tag t) (content w);
      end_tags := if negb (has_tag t (end_tags w))
                  then t :: end_tags w else end_tags w;
      state := state w;
      sees_end := sees_end w |}).
Proof.
  unfold text_tag_add, bind, get_self, lift_outcome, modify.
  cbn [offset_of].
  replace (Z.to_nat (1 - 1)) with 0 by lia.
  rewrite line_offset_0. cbn [Nat.add Nat.min Z.to_nat].
  cbn [firstn skipn app Nat.leb andb]. rewrite Nat.sub_0_r.
  rewrite firstn_all2 by lia. rewrite skipn_all, app_nil_r.
  destruct (Nat.ltb_spec (length (content w)) (S (length (content w))));
    [reflexivity | lia].
Qed.

Lemma select_all_run (v : DebugViewer) :
  select_all v =
  (Ok tt,
   set_text {| content := map (add_tag SEL) (content (text v));
               end_tags := if negb (has_tag SEL (end_tags (text v)))
                           then SEL :: end_tags (text v)
                           else end_tags (text v);
               state := DISABLED;
               sees_end := sees_end (text v) |} v).
Proof.
  unfold select_all, bind.
  cbn [self_text text_configure_state modify].
  erewrite self_text_run' by (try apply text_tag_add_all_run; reflexivity).
  reflexivity.
Qed.

Lemma first_sel_head (c : tchar) (cs : list tchar) :
  has_tag SEL (tags c) = true -> first_sel (c :: cs) = Some 0.
Proof. intros E. simpl. now rewrite E. Qed.

Lemma last_sel_all (cs : list tchar) :
  cs <> [] -> forallb (fun c => has_tag SEL (tags c)) cs = true ->
  last_sel cs = Some (length cs).
Proof.
  induction cs as [|c cs IH]; [easy|]. intros _ Hall.
  simpl in Hall. apply andb_true_iff in Hall as [Hc Hall].
  cbn [last_sel length]. destruct cs as [|c' cs].
  - simpl. now rewrite Hc.
  - now rewrite IH.
Qed.

Lemma text_get_all_selected (w : Text) :
  forallb (fun c => has_tag SEL (tags c)) (all_chars w) = true ->
  text_get SEL_FIRST SEL_LAST w = (Ok (map ch (all_chars w)), w).
Proof.
  intros Hall. unfold text_get, bind, get_self, lift_outcome, ret.
  cbn [offset_of].
  assert (Hne : all_chars w <> [])
    by (unfold all_chars; now destruct (content w)).
  rewrite (last_sel_all Hne Hall).
  destruct (all_chars w) as [|c cs] eqn:E; [easy|].
  simpl in Hall. apply andb_true_iff in Hall as [Hc _].
  rewrite first_sel_head by exact Hc. rewrite firstn_all. reflexivity.
Qed.

Lemma map_ch_add_tag (t : str) (cs : list tchar) :
  map ch (map (add_tag t) cs) = map ch cs.
Proof.
  rewrite map_map. apply map_ext. intros c. unfold add_tag.
  now destruct (has_tag t (tags c)).
Qed.

Lemma entries_from_add_tag (t : str) (cur : str) (cs : list tchar) :
  map fst (entries_from cur (map (add_tag t) cs)) =
  map fst (entries_from cur cs).
Proof.
  revert cur; induction cs as [|c cs IH]; intros cur; trivial.
  cbn [map entries_from].
  replace (is_nl (add_tag t c)) with (is_nl c)
    by (unfold add_tag, is_nl; now destruct (has_tag t (tags c))).
  replace (ch (add_tag t c)) with (ch c)
    by (unfold add_tag; now destruct (has_tag t (tags c))).
  destruct (is_nl c); cbn [map fst]; now rewrite IH.
Qed.

(** The characters of a widget without an open line are its buffer
    lines, each with its newline. *)
Lemma content_is_buffer_lines (cs : list tchar) (cur : str) :
  (cs = [] -> cur = []) -> ends_clean cs = true ->
  rev cur ++ map ch cs = file_lines (map fst (entries_from cur cs)).
Proof.
  revert cur; induction cs as [|c cs IH]; intros cur Hcur Hclean.
  - now rewrite Hcur.
  - cbn [map entries_from]. destruct (is_nl c) eqn:Hc.
    + unfold is_nl in Hc. apply N.eqb_eq in Hc.
      cbn [map fst]. unfold file_lines. cbn [map concat].
      fold (file_lines (map fst (entries_from [] cs))).
      rewrite <- (IH []); trivial.
      * rewrite Hc, <- app_assoc. reflexivity.
      * destruct cs as [|c' cs]; trivial.
        change (c :: c' :: cs) with ([c] ++ c' :: cs) in Hclean.
        now rewrite ends_clean_app in Hclean by discriminate.
    + destruct cs as [|c' cs].
      * unfold ends_clean in Hclean. simpl in Hclean. congruence.
      * rewrite <- IH.
        -- simpl. now rewrite <- app_assoc.
        -- discriminate.
        -- change (c :: c' :: cs) with ([c] ++ c' :: cs) in Hclean.
           now rewrite ends_clean_app in Hclean by discriminate.
Qed.

(** X7: [clear_log] empties the buffer whatever it held, although the
    widget is disabled, and raises nothing; the filter, the clipboard
    and the callbacks that wait for the main loop stay, so a line that
    was read before the click still shows up after it (the waiting
    texts holding neither a newline nor U+0000, as the texts of log
    lines do). *)
Theorem X7_clear_log_empties_buffer `{Unicode} (v : DebugViewer) :
  fst (clear_log v) = Ok tt /\
  buffer (snd (clear_log v)) = [] /\
  state (text (snd (clear_log v))) = DISABLED /\
  filter_var (snd (clear_log v)) = filter_var v /\
  clipboard (snd (clear_log v)) = clipboard v /\
  after_queue (snd (clear_log v)) = after_queue v /\
  (forallb (fun c => one_line (fst c)) (after_queue v) = true ->
   buffer (steps (EvClear :: repeat EvMainloop (length (after_queue v))) v)
   = lastn cap (map queue_entry (after_queue v))).
Proof.
  rewrite clear_log_run. repeat split.
  intros Hnl. cbn [steps fold_left handle].
  rewrite clear_log_run. cbn [snd].
  change (fold_left _ (repeat EvMainloop ?n) ?x)
    with (steps (repeat EvMainloop n) x).
  set (v' := set_text _ v).
  destruct (@steps_mainloop _ (after_queue v) v' eq_refl) as [Hb _];
    trivial.
  unfold count_nl. simpl. lia.
Qed.

Lemma X7_clear_log_witness :
  let v := steps (H := ascii_db)
             [EvAppend (py "late line") (py "stdout")] showing_viewer in
  forallb (fun c => one_line (fst c)) (after_queue v) = true /\
  buffer (steps (H := ascii_db)
            (EvClear :: repeat EvMainloop (length (after_queue v))) v)
  = [(py "late line", [])].
Proof.
  intros v. split; [reflexivity|].
  rewrite (proj2 (proj2 (proj2 (proj2 (proj2 (proj2
            (X7_clear_log_empties_buffer (H := ascii_db) v)))))));
    reflexivity.
Defined.

(** X8: "Select All" followed by "Copy" puts the whole text of the
    widget on the clipboard, the final newline of the widget included,
    in place of what the clipboard held; the lines of the buffer keep
    their text.  When no line is open, the clipboard holds every buffer
    line with its newline, and one more newline. *)
Theorem X8_select_all_then_copy (v : DebugViewer) :
  let v' := snd (copy_selection (snd (select_all v))) in
  fst (copy_selection (snd (select_all v))) = Ok tt /\
  clipboard v' = map ch (content (text v)) ++ [NEWLINE] /\
  map fst (buffer v') = map fst (buffer v) /\
  (ends_clean (content (text v)) = true ->
   clipboard v' = file_lines (map fst (buffer v)) ++ [NEWLINE]).
Proof.
  rewrite select_all_run. cbn [snd].
  set (w := {| content := map (add_tag SEL) (content (text v));
               end_tags := _; state := DISABLED;
               sees_end := sees_end (text v) |}).
  assert (Hall : forallb (fun c => has_tag SEL (tags c)) (all_chars w) = true).
  { unfold all_chars, w. cbn [content end_tags].
    rewrite forallb_app. apply andb_true_iff. split.
    - rewrite forallb_map_fst. apply forallb_forall. intros c _.
      apply has_tag_add_tag.
    - simpl. rewrite andb_true_r.
      destruct (has_tag SEL (end_tags (text v))) eqn:E; simpl; trivial. }
  assert (Hcopy : copy_selection (set_text w v) =
                  (Ok tt, set_clipboard (map ch (all_chars w))
                            (set_text w v))).
  { unfold copy_selection, try_except_TclError, bind, self_text.
    change (text (set_text w v)) with w.
    now rewrite (text_get_all_selected _ Hall). }
  rewrite Hcopy. cbn [fst snd].
  assert (Hclip : clipboard (set_clipboard (map ch (all_chars w))
                               (set_text w v))
                  = map ch (content (text v)) ++ [NEWLINE]).
  { cbn [clipboard set_clipboard]. unfold all_chars, w.
    cbn [content end_tags]. rewrite map_app, map_ch_add_tag. reflexivity. }
  repeat split; trivial.
  - unfold buffer. cbn [text set_clipboard set_text]. unfold w.
    cbn [content]. apply entries_from_add_tag.
  - intros Hclean. rewrite Hclip. f_equal.
    now apply (@content_is_buffer_lines _ []).
Qed.

Lemma X8_select_all_then_copy_witness :
  ends_clean (content (text showing_viewer)) = true /\
  clipboard (snd (copy_selection (snd (select_all showing_viewer)))) =
  py "ready in 2s" ++ [NEWLINE] ++ py "boom" ++ [NEWLINE] ++ [NEWLINE].
Proof.
  split; [reflexivity|].
  rewrite (proj2 (proj2 (proj2 (X8_select_all_then_copy showing_viewer))));
    reflexivity.
Defined.

Lemma handle_ok `{Unicode} (e : event) (v : DebugViewer) :
  fst (handle e v) = Ok tt.
Proof.
  destruct e; cbn [handle].
  - now rewrite append_line_cases.
  - unfold mainloop_step, bind, get_self.
    now destruct (after_queue v) as [|[clean tag] q].
  - reflexivity.
  - reflexivity.
  - now rewrite clear_log_run.
  - now rewrite select_all_run.
  - unfold copy_selection, try_except_TclError, bind, self_text, text_get.
    unfold bind, get_self, lift_outcome, ret.
    cbn [offset_of].
    destruct (first_sel (all_chars (text v))); trivial.
    destruct (last_sel (all_chars (text v))); trivial.
Qed.

Lemma handle_disabled `{Unicode} (e : event) (v : DebugViewer) :
  state (text v) = DISABLED -> state (text (snd (handle e v))) = DISABLED.
Proof.
  intros Hs. destruct e; cbn [handle].
  - now rewrite append_line_text.
  - destruct (after_queue v) as [|[clean tag] q] eqn:E.
    + now rewrite mainloop_step_empty.
    + rewrite (mainloop_step_run _ E). cbn [snd]. now rewrite _insert_run.
  - exact Hs.
  - exact Hs.
  - now rewrite clear_log_run.
  - now rewrite select_all_run.
  - now rewrite copy_selection_text.
Qed.

(** X9: while the window exists (the events are the calls of
    [append_line], the turns of the main loop, the edits of the filter
    and of the auto-scroll box and the clicks on "Clear", "Select All"
    and "Copy"; closing the window is not among them), no handler of
    the viewer lets an exception out, and between any two events the
    widget is disabled: every method that writes to it enables it first
    and disables it again, so the user can never type into the log. *)
Theorem X9_widget_stays_read_only `{Unicode} (es : list event) (clip : str) :
  state (text (steps es (init clip))) = DISABLED /\
  forall e, fst (handle e (steps es (init clip))) = Ok tt.
Proof.
  split; [|intros e; apply handle_ok].
  assert (Hgen : forall v, state (text v) = DISABLED ->
                           state (text (steps es v)) = DISABLED).
  { induction es as [|e es IH]; intros v Hv; trivial.
    apply IH. now apply handle_disabled. }
  now apply Hgen.
Qed.

(** X10: [_insert] works the buffer as a queue.  On a widget without
    an open line, a text that holds neither a newline nor U+0000
    (where the widget would cut it) becomes the newest entry;
    nothing else changes while the buffer is below the cap, and a full
    buffer loses its oldest entry and no other. *)
Theorem X10_insert_is_first_in_first_out (clean tag : str) (v : DebugViewer) :
  ends_clean (content (text v)) = true ->
  one_line clean = true ->
  let entry := (clean, insert_tags (text v) tag) in
  buffer (snd (_insert clean tag v)) = lastn cap (buffer v ++ [entry]) /\
  (length (buffer v) < cap ->
   buffer (snd (_insert clean tag v)) = buffer v ++ [entry]) /\
  (length (buffer v) = cap ->
   buffer (snd (_insert clean tag v)) = tl (buffer v) ++ [entry]).
Proof.
  intros Hclean Hn entry.
  assert (Hb := @buffer_insert clean tag v Hclean Hn). fold entry in Hb.
  split; [exact Hb|]. split; intros Hlen; rewrite Hb.
  - apply lastn_all. rewrite length_app. simpl. lia.
  - rewrite lastn_snoc by (unfold cap; lia). f_equal.
    unfold lastn. rewrite Hlen.
    replace (cap - (cap - 1)) with 1 by (unfold cap; lia).
    now destruct (buffer v).
Qed.

Lemma X10_insert_witness :
  ends_clean (content (text showing_viewer)) = true /\
  one_line (py "third") = true /\
  length (buffer showing_viewer) < cap /\
  buffer (snd (_insert (py "third") (py "info") showing_viewer)) =
  buffer showing_viewer ++ [(py "third", [py "info"])].
Proof.
  assert (Hlt : length (buffer showing_viewer) < cap)
    by (apply Nat.ltb_lt; vm_compute; reflexivity).
  split; [reflexivity|]. split; [reflexivity|]. split; [exact Hlt|].
  exact (proj1 (proj2 (@X10_insert_is_first_in_first_out (py "third")
                         (py "info") showing_viewer eq_refl eq_refl)) Hlt).
Defined.

(** ** The tailer thread *)

Section TailFile.
Context `{Unicode}.

Lemma set_after_queue_same (v : DebugViewer) :
  set_after_queue (after_queue v ++ []) v = v.
Proof. rewrite app_nil_r. now destruct v. Qed.

Lemma set_after_queue_twice (q1 q2 : list (str * str)) (v : DebugViewer) :
  set_after_queue (after_queue (set_after_queue (after_queue v ++ q1) v) ++ q2)
    (set_after_queue (after_queue v ++ q1) v) =
  set_after_queue (after_queue v ++ q1 ++ q2) v.
Proof.
  unfold set_after_queue.
  cbn [running auto_scroll_var filter_var text clipboard after_queue].
  now rewrite app_assoc.
Qed.

Lemma tail_file_step_waiting (file : file_state) (stream : str)
    (v : DebugViewer) :
  running v = true ->
  tail_file_step file stream Waiting v =
  (match file with
   | Absent => Ok Waiting
   | Holds data => Ok (Tailing (length data))
   | Unreadable => Raise OtherError
   end, v).
Proof.
  intros Hr. unfold tail_file_step, bind, get_self. rewrite Hr.
  now destruct file.
Qed.

Lemma tail_file_step_idle (data stream : str) (pos : nat) (v : DebugViewer) :
  running v = true -> length data <= pos ->
  tail_file_step (Holds data) stream (Tailing pos) v = (Ok (Tailing pos), v).
Proof.
  intros Hr Hle. unfold tail_file_step, bind, get_self. rewrite Hr.
  destruct (tail_poll_cases data pos) as [[_ ->] | [Hlt _]];
    [reflexivity | lia].
Qed.

Lemma tail_file_step_line (old l rest stream : str) (v : DebugViewer) :
  running v = true -> filter_var v = [] -> file_line l = true ->
  tail_file_step (Holds (old ++ (l ++ [NEWLINE]) ++ rest)) stream
    (Tailing (length old)) v =
  (Ok (Tailing (length (old ++ l ++ [NEWLINE]))),
   set_after_queue (after_queue v ++ [closure_of (rstrip l, stream)]) v).
Proof.
  intros Hr Hf Hl. unfold tail_file_step, bind, get_self. rewrite Hr.
  rewrite tail_poll_line by trivial.
  rewrite append_line_cases, Hf.
  change (truthy (lower (strip []))) with false. cbn [andb].
  reflexivity.
Qed.

Lemma tail_file_idle (n : nat) (data stream : str) (v : DebugViewer) :
  running v = true ->
  tail_file (repeat (Holds data) n) stream (Tailing (length data)) v =
  (Ok (Tailing (length data)), v).
Proof.
  intros Hr. induction n as [|n IH]; [reflexivity|].
  cbn [repeat tail_file]. unfold bind.
  now rewrite tail_file_step_idle.
Qed.

(** The lines that are in the file after the read position are queued
    in order, each once. *)
Lemma tail_file_lines (ls : list str) (old : str) (n : nat) (stream : str)
    (v : DebugViewer) :
  running v = true -> filter_var v = [] ->
  forallb file_line ls = true -> length ls <= n ->
  tail_file (repeat (Holds (old ++ file_lines ls)) n) stream
    (Tailing (length old)) v =
  (Ok (Tailing (length (old ++ file_lines ls))),
   set_after_queue
     (after_queue v ++ map (fun l => closure_of (rstrip l, stream)) ls) v).
Proof.
  revert old n v; induction ls as [|l ls IH]; intros old n v Hr Hf Hnl Hn.
  - unfold file_lines. cbn [map concat]. rewrite app_nil_r.
    rewrite tail_file_idle by trivial. now rewrite set_after_queue_same.
  - simpl in Hnl. apply andb_true_iff in Hnl as [Hl Hnl].
    destruct n as [|n]; [simpl in Hn; lia|].
    cbn [repeat tail_file]. unfold bind.
    change (file_lines (l :: ls)) with ((l ++ [NEWLINE]) ++ file_lines ls).
    rewrite tail_file_step_line by trivial.
    replace (old ++ (l ++ [NEWLINE]) ++ file_lines ls)
      with ((old ++ l ++ [NEWLINE]) ++ file_lines ls)
      by now rewrite <- !app_assoc.
    rewrite IH; trivial; [|simpl in Hn; lia].
    now rewrite set_after_queue_twice.
Qed.

Lemma file_lines_app (a b : list str) :
  file_lines (a ++ b) = file_lines a ++ file_lines b.
Proof. unfold file_lines. now rewrite map_app, concat_app. Qed.

(** The same while the file grows: [pending] is what is written and not
    read yet. *)
Lemma tail_file_appends (chunks : list (list str)) (read : str)
    (pending : list str) (n : nat) (stream : str) (v : DebugViewer) :
  running v = true -> filter_var v = [] ->
  forallb file_line (pending ++ concat chunks) = true ->
  length (pending ++ concat chunks) <= n ->
  tail_file (appends (read ++ file_lines pending) chunks ++
             repeat (Holds (read ++ file_lines (pending ++ concat chunks))) n)
    stream (Tailing (length read)) v =
  (Ok (Tailing (length (read ++ file_lines (pending ++ concat chunks)))),
   set_after_queue
     (after_queue v ++
      map (fun l => closure_of (rstrip l, stream)) (pending ++ concat chunks))
     v).
Proof.
  revert read pending v; induction chunks as [|c chunks IH];
    intros read pending v Hr Hf Hl Hn.
  - cbn [concat appends app] in *. rewrite app_nil_r in *.
    now apply tail_file_lines.
  - cbn [concat appends app tail_file]. unfold bind.
    cbn [concat] in Hl, Hn.
    rewrite <- (app_assoc read), <- file_lines_app.
    rewrite (app_assoc pending c (concat chunks)) in Hl, Hn |- *.
    destruct (pending ++ c) as [|l rest].
    + rewrite tail_file_step_idle;
        [|trivial | unfold file_lines; simpl; rewrite app_nil_r; lia].
      now apply IH.
    + simpl in Hl. apply andb_true_iff in Hl as [Hl Hls].
      cbn [app]. change (file_lines (l :: ?x))
        with ((l ++ [NEWLINE]) ++ file_lines x).
      rewrite tail_file_step_line by trivial.
      rewrite !(app_assoc read (l ++ [NEWLINE])).
      rewrite IH; trivial; [|simpl in Hn; lia].
      rewrite set_after_queue_twice. reflexivity.
Qed.

(** One turn of a tailer leaves the viewer as it is, but for at most
    one callback more at the end of the queue; also when it raises. *)
Lemma tail_file_step_frame (file : file_state) (stream : str) (t : tailer)
    (v : DebugViewer) :
  exists r extra,
    tail_file_step file stream t v =
    (r, set_after_queue (after_queue v ++ extra) v) /\
    (extra = [] \/ exists line, extra = [closure_of (line, stream)]).
Proof.
  unfold tail_file_step, bind, get_self.
  assert (Hsame : forall r : outcome tailer, exists r' extra,
             (r, v) = (r', set_after_queue (after_queue v ++ extra) v) /\
             (extra = [] \/ exists line, extra = [closure_of (line, stream)])).
  { intros r. exists r, []. rewrite set_after_queue_same. auto. }
  destruct t as [|pos|]; destruct (running v); try apply Hsame.
  - destruct file; apply Hsame.
  - destruct file as [|data|]; try apply Hsame.
    destruct (tail_poll data pos) as [[line|] pos']; [|apply Hsame].
    rewrite append_line_cases. cbn [ret].
    destruct (truthy _ && negb _).
    + apply Hsame.
    + exists (Ok (Tailing pos')), [closure_of (line, stream)]. split; eauto.
Qed.

Lemma tail_file_frame (files : list file_state) (stream : str)
    (t : tailer) (v : DebugViewer) :
  exists r extra,
    tail_file files stream t v =
    (r, set_after_queue (after_queue v ++ extra) v) /\
    length extra <= length files /\
    Forall (fun c => exists line, c = closure_of (line, stream)) extra.
Proof.
  revert t v; induction files as [|f files IH]; intros t v.
  - exists (Ok t), []. rewrite set_after_queue_same. repeat split; auto.
  - cbn [tail_file]. unfold bind.
    destruct (tail_file_step_frame f stream t v) as (r1 & e1 & -> & He1).
    assert (Hlen1 : length e1 <= 1)
      by (destruct He1 as [-> | [line ->]]; simpl; lia).
    assert (Hall1 : Forall (fun c => exists line,
                                c = closure_of (line, stream)) e1)
      by (destruct He1 as [-> | [line ->]]; eauto).
    destruct r1 as [t1|e].
    + destruct (IH t1 (set_after_queue (after_queue v ++ e1) v))
        as (r2 & e2 & -> & Hlen & Hall).
      exists r2, (e1 ++ e2). rewrite set_after_queue_twice.
      repeat split; [|now apply Forall_app].
      rewrite length_app. simpl. lia.
    + exists (Raise e), e1. repeat split; trivial. simpl. lia.
Qed.

Lemma tail_file_from_start (k : nat) (old : str) (chunks : list (list str))
    (n : nat) (stream : str) (v : DebugViewer) :
  running v = true -> filter_var v = [] ->
  forallb file_line (concat chunks) = true -> length (concat chunks) <= n ->
  tail_file (repeat Absent k ++
             Holds old ::
             appends old chunks ++
             repeat (Holds (old ++ file_lines (concat chunks))) n)
    stream Waiting v =
  (Ok (Tailing (length (old ++ file_lines (concat chunks)))),
   set_after_queue
     (after_queue v ++
      map (fun l => closure_of (rstrip l, stream)) (concat chunks)) v).
Proof.
  intros Hr Hf Hnl Hn.
  assert (Hwait : forall files,
             tail_file (repeat Absent k ++ files) stream Waiting v =
             tail_file files stream Waiting v).
  { intros files. induction k as [|k IH]; [reflexivity|].
    cbn [repeat app tail_file]. unfold bind.
    now rewrite tail_file_step_waiting. }
  rewrite Hwait. cbn [tail_file]. unfold bind.
  rewrite tail_file_step_waiting by trivial.
  assert (E := @tail_file_appends chunks old [] n stream v Hr Hf Hnl Hn).
  unfold file_lines at 1 in E. cbn [map concat app] in E.
  rewrite app_nil_r in E. exact E.
Qed.
End TailFile.

(** X11: a tailer that starts before its file exists waits without
    touching the viewer; when the file appears it starts at the end of
    it, so nothing that was in the file by then is ever queued.  The
    lines that are appended later, any number of them between two turns
    of the tailer (whole lines, LF at their end, neither LF nor CR
    inside), are queued in order, each once, without the white space at
    their end, with the stream of the tailer (no filter set). *)
Theorem X11_tailer_skips_old_content `{Unicode} (k : nat) (old : str)
    (chunks : list (list str)) (n : nat) (stream : str) (v : DebugViewer) :
  running v = true -> filter_var v = [] ->
  forallb file_line (concat chunks) = true -> length (concat chunks) <= n ->
  tail_file (repeat Absent k ++
             Holds old ::
             appends old chunks ++
             repeat (Holds (old ++ file_lines (concat chunks))) n)
    stream Waiting v =
  (Ok (Tailing (length (old ++ file_lines (concat chunks)))),
   set_after_queue
     (after_queue v ++
      map (fun l => closure_of (rstrip l, stream)) (concat chunks)) v).
Proof. apply tail_file_from_start. Qed.

Lemma X11_tailer_skips_old_content_witness :
  let old := py "written before" ++ [NEWLINE] in
  let chunks := [[py "GET /a 200  "; py "done"]; []; [py "late"]] in
  running (init []) = true /\ filter_var (init []) = [] /\
  forallb file_line (concat chunks) = true /\ length (concat chunks) <= 3 /\
  after_queue (snd (tail_file (H := ascii_db)
     (repeat Absent 2 ++
      Holds old ::
      appends old chunks ++
      repeat (Holds (old ++ file_lines (concat chunks))) 3)
     (py "stdout") Waiting (init []))) =
  [(py "GET /a 200", py "route"); (py "done", []); (py "late", [])].
Proof.
  intros old chunks.
  assert (Hn : length (concat chunks) <= 3) by (simpl; lia).
  repeat (split; [first [reflexivity | exact Hn]|]).
  exact (f_equal (fun r => after_queue (snd r))
           (@X11_tailer_skips_old_content ascii_db 2 old chunks 3
              (py "stdout") (init []) eq_refl eq_refl eq_refl Hn)).
Defined.

(** X13: a tailer never touches the widget, the clipboard, the filter
    or the running flag, whether it goes on or ends with an exception
    of [open] or [readline]: all it does to the viewer is to put
    callbacks at the end of the queue, at most one a turn, behind those
    that wait already. *)
Theorem X13_tailer_only_queues `{Unicode} (files : list file_state)
    (stream : str) (t : tailer) (v : DebugViewer) :
  let r := tail_file files stream t v in
  text (snd r) = text v /\
  clipboard (snd r) = clipboard v /\
  filter_var (snd r) = filter_var v /\
  running (snd r) = running v /\
  exists extra, after_queue (snd r) = after_queue v ++ extra /\
                length extra <= length files.
Proof.
  destruct (tail_file_frame files stream t v) as (r' & extra & E & Hlen & _).
  cbn zeta. rewrite E. cbn [fst snd]. repeat split.
  exists extra. now split.
Qed.

(** X14: what the tailer of the error log queues is tagged as an
    error, whatever the lines say and whatever the filter lets
    through. *)
Theorem X14_error_log_is_all_errors `{Unicode} (files : list file_state)
    (t : tailer) (v : DebugViewer) :
  In (py "/tmp/hebelki-error.log", py "stderr") LOG_FILES /\
  exists extra,
    after_queue (snd (tail_file files (py "stderr") t v)) =
    after_queue v ++ extra /\
    Forall (fun c => snd c = py "error") extra.
Proof.
  split; [simpl; tauto|].
  destruct (tail_file_frame files (py "stderr") t v)
    as (r' & extra & E & _ & Hall).
  exists extra. rewrite E. split; trivial.
  apply (Forall_impl _ (P := fun c => exists line,
                               c = closure_of (line, py "stderr")));
    trivial.
  now intros c [line ->].
Qed.

Lemma no_nul_spec (s : str) : no_nul s = true <-> ~ In NUL s.
Proof.
  unfold no_nul. rewrite forallb_forall. split.
  - intros Hall Hin. specialize (Hall _ Hin). now rewrite N.eqb_refl in Hall.
  - intros Hno c Hc. apply negb_true_iff, N.eqb_neq. now intros ->.
Qed.

Lemma no_nul_strip_ansi (s : str) :
  no_nul s = true -> no_nul (strip_ansi s) = true.
Proof.
  rewrite !no_nul_spec. intros Hno Hin. now apply Hno, strip_ansi_In.
Qed.

Lemma no_nul_rstrip `{Unicode} (s : str) :
  no_nul s = true -> no_nul (rstrip s) = true.
Proof.
  destruct (rstrip_split s) as (ws & Hs & _). intros Hn.
  rewrite Hs in Hn. unfold no_nul in Hn. rewrite forallb_app in Hn.
  now apply andb_true_iff in Hn as [Hn _].
Qed.

(** X15: from the file to the buffer.  A new viewer whose tailer saw
    the file appear and then lines appended to it (whole lines, LF at
    their end, none of LF, CR and U+0000 inside) shows, once the main
    loop has run the callbacks, the last 5000 of these lines, in order:
    trimmed at the end, stripped of escape sequences, each with the tag
    of its category; of what the file held before, nothing. *)
Theorem X15_appended_lines_reach_the_buffer `{Unicode} (k : nat)
    (old : str) (chunks : list (list str)) (n : nat) (stream clip : str) :
  forallb file_line (concat chunks) = true ->
  forallb no_nul (concat chunks) = true ->
  length (concat chunks) <= n ->
  let v := snd (tail_file
                  (repeat Absent k ++
                   Holds old ::
                   appends old chunks ++
                   repeat (Holds (old ++ file_lines (concat chunks))) n)
                  stream Waiting (init clip)) in
  buffer (steps (repeat EvMainloop (length (concat chunks))) v) =
  lastn cap (map (fun l => entry_of (rstrip l, stream)) (concat chunks)).
Proof.
  intros Hnl Hnul Hn v. unfold v.
  rewrite tail_file_from_start by trivial. cbn [snd after_queue init app].
  set (ls := concat chunks) in *.
  set (q := map (fun l => closure_of (rstrip l, stream)) ls).
  replace (length ls) with (length q) by apply length_map.
  destruct (@steps_mainloop _ q (set_after_queue q (init clip)) eq_refl)
    as [Hb _]; try reflexivity.
  - unfold count_nl. simpl. lia.
  - unfold q. rewrite forallb_map_fst. apply forallb_forall.
    intros l Hl. cbn [closure_of fst].
    rewrite forallb_forall in Hnl, Hnul.
    destruct (file_line_split _ (Hnl l Hl)) as [Hl1 _].
    unfold one_line. apply andb_true_iff. split.
    + now apply no_newline_strip_ansi, no_newline_rstrip.
    + apply no_nul_strip_ansi, no_nul_rstrip. now apply Hnul.
  - rewrite Hb. cbn [buffer init text new_text content entries_from app].
    unfold q. now rewrite map_map.
Qed.

Lemma X15_appended_lines_witness :
  let chunks := [[ESC :: py "[32mready" ++ ESC :: py "[0m in 2s "; []];
                 []; [py "TypeError: x"]] in
  forallb file_line (concat chunks) = true /\
  forallb no_nul (concat chunks) = true /\
  length (concat chunks) <= 4 /\
  buffer (steps (H := ascii_db) (repeat EvMainloop (length (concat chunks)))
            (snd (tail_file (H := ascii_db)
                    (repeat Absent 1 ++
                     Holds (py "old") ::
                     appends (py "old") chunks ++
                     repeat (Holds (py "old" ++ file_lines (concat chunks))) 4)
                    (py "stdout") Waiting (init [])))) =
  [(py "ready in 2s", [py "success"]); ([], []);
   (py "TypeError: x", [py "error"])].
Proof.
  intros chunks.
  assert (Hn : length (concat chunks) <= 4) by (simpl; lia).
  split; [reflexivity|]. split; [reflexivity|]. split; [exact Hn|].
  refine (eq_trans (@X15_appended_lines_reach_the_buffer ascii_db 1
                      (py "old") chunks 4 (py "stdout") []
                      eq_refl eq_refl Hn) _).
  vm_compute. reflexivity.
Defined.

Lemma insert_after_filter (clean tag s : str) (v : DebugViewer) :
  snd (_insert clean tag (set_filter_var s v)) =
  set_filter_var s (snd (_insert clean tag v)).
Proof. now rewrite !_insert_run. Qed.

Lemma steps_mainloop_after_filter `{Unicode} (n : nat) (s : str)
    (v : DebugViewer) :
  steps (repeat EvMainloop n) (set_filter_var s v) =
  set_filter_var s (steps (repeat EvMainloop n) v).
Proof.
  revert v; induction n as [|n IH]; intros v; [reflexivity|].
  cbn [repeat steps fold_left handle].
  change (fold_left _ (repeat EvMainloop n) ?x)
    with (steps (repeat EvMainloop n) x).
  destruct (after_queue v) as [|[clean tag] q] eqn:E.
  - rewrite !mainloop_step_empty by (trivial; exact E). apply IH.
  - rewrite (@mainloop_step_run v clean tag q E).
    rewrite (@mainloop_step_run (set_filter_var s v) clean tag q E).
    cbn [snd].
    change (set_after_queue q (set_filter_var s v))
      with (set_filter_var s (set_after_queue q v)).
    rewrite insert_after_filter. apply IH.
Qed.

(** X17: the filter is looked at when a line arrives, and never
    again: editing the filter entry changes neither the lines that are
    shown nor the lines that wait for the main loop, which are shown
    even if the new filter would not let them through. *)
Theorem X17_filter_is_not_applied_again `{Unicode} (s : str) (n : nat)
    (v : DebugViewer) :
  buffer (steps (EvFilter s :: repeat EvMainloop n) v) =
  buffer (steps (repeat EvMainloop n) v) /\
  after_queue (steps (EvFilter s :: repeat EvMainloop n) v) =
  after_queue (steps (repeat EvMainloop n) v).
Proof.
  cbn [steps fold_left handle modify snd].
  change (fold_left _ (repeat EvMainloop n) ?x)
    with (steps (repeat EvMainloop n) x).
  rewrite steps_mainloop_after_filter. now split.
Qed.

Lemma lstrip_all_space `{Unicode} (s : str) :
  forallb isspace s = true -> lstrip s = [].
Proof.
  induction s as [|c s IH]; trivial. simpl.
  intros [Hc Hs]%andb_true_iff. rewrite Hc. now apply IH.
Qed.

(** X18: a filter entry that is empty or holds white space only is no
    filter: every line is passed on. *)
Theorem X18_blank_filter_lets_all_through `{Unicode} (self : DebugViewer)
    (line stream : str) :
  forallb isspace (filter_var self) = true ->
  accepted self line stream.
Proof.
  intros Hblank. unfold accepted. rewrite append_line_cases.
  unfold strip. rewrite lstrip_all_space by trivial.
  change (truthy (lower (rstrip []))) with false. reflexivity.
Qed.

Lemma X18_blank_filter_witness :
  let self := set_filter_var (py "   ") (init []) in
  forallb (isspace (Unicode := ascii_db)) (filter_var self) = true /\
  accepted (H := ascii_db) self (py "anything") (py "stdout").
Proof.
  intros self. split; [reflexivity|].
  apply (X18_blank_filter_lets_all_through (H := ascii_db)). reflexivity.
Defined.

(** ** Characters that break a line *)




Lemma take_line_return (a rest : str) :
  file_line a = true -> take_line (a ++ RETURN :: rest) = a ++ [NEWLINE].
Proof.
  intros [Hn Hr]%file_line_split.
  induction a as [|c a IH]; [reflexivity|].
  simpl in Hn, Hr.
  apply andb_true_iff in Hn as [Hc Hn]. apply andb_true_iff in Hr as [Hd Hr].
  apply negb_true_iff in Hc, Hd.
  cbn [app take_line]. rewrite Hc, Hd. cbn [orb]. now rewrite IH.
Qed.

(** X20: a carriage return in the file ends a line, with or without a
    line feed after it: what stands before it is passed on as a line of
    its own.  A progress display that rewrites its line with carriage
    returns arrives as one line for every state. *)
Theorem X20_carriage_return_ends_a_line `{Unicode} (old a rest : str) :
  file_line a = true ->
  readline (old ++ a ++ RETURN :: rest) (length old) = a ++ [NEWLINE] /\
  fst (tail_poll (old ++ a ++ RETURN :: rest) (length old)) =
  Some (rstrip a) /\
  tail_polls (H := ascii_db) 5
    (py "50%" ++ [RETURN] ++ py "100%" ++ [RETURN; NEWLINE] ++
     py "done" ++ [NEWLINE]) 0 =
  [py "50%"; py "100%"; py "done"].
Proof.
  intros Ha.
  assert (E : readline (old ++ a ++ RETURN :: rest) (length old)
              = a ++ [NEWLINE]).
  { unfold readline. rewrite skipn_old. now apply take_line_return. }
  split; [exact E|]. split; [|reflexivity].
  unfold tail_poll. rewrite E.
  replace (truthy (a ++ [NEWLINE])) with true by now destruct a.
  cbn [fst]. now rewrite rstrip_newline.
Qed.

Lemma X20_carriage_return_witness :
  file_line (py "50% ") = true /\
  fst (tail_poll (H := ascii_db) (py "50% " ++ RETURN :: py "100%") 0) =
  Some (py "50%").
Proof.
  split; [reflexivity|].
  exact (proj1 (proj2 (@X20_carriage_return_ends_a_line ascii_db []
                         (py "50% ") (py "100%") eq_refl))).
Defined.
